(** * Christmas-tree scene: particle layout, per-frame update and mode state machine

    Shallow embedding of [src/components/Scene3D.tsx]: class [Particle], and
    of the [Scene3D] component the handlers [processGestures], [predictWebcam],
    [onClick] and [onMouseMove], [addPhotoToScene], the rotation logic of
    [animate], [createStarShape] and the construction of the entities,
    together with the few three.js methods those functions call.

    Numbers.  A JavaScript [number] is modelled by an exact number: a real
    ([R]) in the particle code, which calls [Math.pow], [Math.cos], [Math.sin]
    and [Math.acos], and a rational ([Q]) in the gesture classifier, which only
    compares, adds, scales and floors.  Rounding, NaN and the infinities of
    IEEE doubles are not represented.

    Objects.  A three.js object is identified by a handle ([nat]); the JS test
    [a === b] on objects is equality of handles. *)

From Stdlib Require Import Reals Lra Lia ZArith QArith Qabs Qround List String Bool.
Import ListNotations.

Close Scope Q_scope.
Local Open Scope R_scope.

(* ================================================================= *)
(** * Part I: definitions *)
(* ================================================================= *)

(** [types.ts]: [export type AppMode = 'TREE' | 'SCATTER' | 'FOCUS']. *)
Inductive AppMode : Type := TREE | SCATTER | FOCUS.

Definition AppMode_eqb (a b : AppMode) : bool :=
  match a, b with
  | TREE, TREE | SCATTER, SCATTER | FOCUS, FOCUS => true
  | _, _ => false
  end.

(** Handle of a three.js object (a mesh or a group). *)
Definition Obj : Type := nat.

(** [a === b] where [b] may be [null]. *)
Definition same_object (a : Obj) (b : option Obj) : bool :=
  match b with
  | Some h => Nat.eqb a h
  | None => false
  end.

(** ** The three.js methods used by the source, over the reals *)

Module Matrix4.

(** [elements] is the column-major array of sixteen numbers. *)
Record t : Type := mk {
  e0 : R; e1 : R; e2 : R; e3 : R;
  e4 : R; e5 : R; e6 : R; e7 : R;
  e8 : R; e9 : R; e10 : R; e11 : R;
  e12 : R; e13 : R; e14 : R; e15 : R
}.

Definition identity : t :=
  mk 1 0 0 0
     0 1 0 0
     0 0 1 0
     0 0 0 1.

Definition zero : t :=
  mk 0 0 0 0  0 0 0 0  0 0 0 0  0 0 0 0.

(** [Matrix4.determinant]-style expansion used inside [invert]. *)
Definition det (m : t) : R :=
  let n11 := e0 m in let n21 := e1 m in let n31 := e2 m in let n41 := e3 m in
  let n12 := e4 m in let n22 := e5 m in let n32 := e6 m in let n42 := e7 m in
  let n13 := e8 m in let n23 := e9 m in let n33 := e10 m in let n43 := e11 m in
  let n14 := e12 m in let n24 := e13 m in let n34 := e14 m in let n44 := e15 m in
  let t11 := n23 * n34 * n42 - n24 * n33 * n42 + n24 * n32 * n43
             - n22 * n34 * n43 - n23 * n32 * n44 + n22 * n33 * n44 in
  let t12 := n14 * n33 * n42 - n13 * n34 * n42 - n14 * n32 * n43
             + n12 * n34 * n43 + n13 * n32 * n44 - n12 * n33 * n44 in
  let t13 := n13 * n24 * n42 - n14 * n23 * n42 + n14 * n22 * n43
             - n12 * n24 * n43 - n13 * n22 * n44 + n12 * n23 * n44 in
  let t14 := n14 * n23 * n32 - n13 * n24 * n32 - n14 * n22 * n33
             + n12 * n24 * n33 + n13 * n22 * n34 - n12 * n23 * n34 in
  n11 * t11 + n21 * t12 + n31 * t13 + n41 * t14.

(** [Matrix4.invert]: cofactor formula; a singular matrix becomes the zero
    matrix. *)
Definition invert (m : t) : t :=
  let n11 := e0 m in let n21 := e1 m in let n31 := e2 m in let n41 := e3 m in
  let n12 := e4 m in let n22 := e5 m in let n32 := e6 m in let n42 := e7 m in
  let n13 := e8 m in let n23 := e9 m in let n33 := e10 m in let n43 := e11 m in
  let n14 := e12 m in let n24 := e13 m in let n34 := e14 m in let n44 := e15 m in
  let t11 := n23 * n34 * n42 - n24 * n33 * n42 + n24 * n32 * n43
             - n22 * n34 * n43 - n23 * n32 * n44 + n22 * n33 * n44 in
  let t12 := n14 * n33 * n42 - n13 * n34 * n42 - n14 * n32 * n43
             + n12 * n34 * n43 + n13 * n32 * n44 - n12 * n33 * n44 in
  let t13 := n13 * n24 * n42 - n14 * n23 * n42 + n14 * n22 * n43
             - n12 * n24 * n43 - n13 * n22 * n44 + n12 * n23 * n44 in
  let t14 := n14 * n23 * n32 - n13 * n24 * n32 - n14 * n22 * n33
             + n12 * n24 * n33 + n13 * n22 * n34 - n12 * n23 * n34 in
  let d := n11 * t11 + n21 * t12 + n31 * t13 + n41 * t14 in
  if Req_dec_T d 0 then zero
  else
    let detInv := 1 / d in
    mk (t11 * detInv)
       ((n24 * n33 * n41 - n23 * n34 * n41 - n24 * n31 * n43
         + n21 * n34 * n43 + n23 * n31 * n44 - n21 * n33 * n44) * detInv)
       ((n22 * n34 * n41 - n24 * n32 * n41 + n24 * n31 * n42
         - n21 * n34 * n42 - n22 * n31 * n44 + n21 * n32 * n44) * detInv)
       ((n23 * n32 * n41 - n22 * n33 * n41 - n23 * n31 * n42
         + n21 * n33 * n42 + n22 * n31 * n43 - n21 * n32 * n43) * detInv)
       (t12 * detInv)
       ((n13 * n34 * n41 - n14 * n33 * n41 + n14 * n31 * n43
         - n11 * n34 * n43 - n13 * n31 * n44 + n11 * n33 * n44) * detInv)
       ((n14 * n32 * n41 - n12 * n34 * n41 - n14 * n31 * n42
         + n11 * n34 * n42 + n12 * n31 * n44 - n11 * n32 * n44) * detInv)
       ((n12 * n33 * n41 - n13 * n32 * n41 + n13 * n31 * n42
         - n11 * n33 * n42 - n12 * n31 * n43 + n11 * n32 * n43) * detInv)
       (t13 * detInv)
       ((n14 * n23 * n41 - n13 * n24 * n41 - n14 * n21 * n43
         + n11 * n24 * n43 + n13 * n21 * n44 - n11 * n23 * n44) * detInv)
       ((n12 * n24 * n41 - n14 * n22 * n41 + n14 * n21 * n42
         - n11 * n24 * n42 - n12 * n21 * n44 + n11 * n22 * n44) * detInv)
       ((n13 * n22 * n41 - n12 * n23 * n41 - n13 * n21 * n42
         + n11 * n23 * n42 + n12 * n21 * n43 - n11 * n22 * n43) * detInv)
       (t14 * detInv)
       ((n13 * n24 * n31 - n14 * n23 * n31 + n14 * n21 * n33
         - n11 * n24 * n33 - n13 * n21 * n34 + n11 * n23 * n34) * detInv)
       ((n14 * n22 * n31 - n12 * n24 * n31 - n14 * n21 * n32
         + n11 * n24 * n32 + n12 * n21 * n34 - n11 * n22 * n34) * detInv)
       ((n12 * n23 * n31 - n13 * n22 * n31 + n13 * n21 * n32
         - n11 * n23 * n32 - n12 * n21 * n33 + n11 * n22 * n33) * detInv).

(** [Matrix4.multiplyMatrices (a, b)], used here only to check [invert]. *)
Definition multiply (a b : t) : t :=
  mk (e0 a * e0 b + e4 a * e1 b + e8 a * e2 b + e12 a * e3 b)
     (e1 a * e0 b + e5 a * e1 b + e9 a * e2 b + e13 a * e3 b)
     (e2 a * e0 b + e6 a * e1 b + e10 a * e2 b + e14 a * e3 b)
     (e3 a * e0 b + e7 a * e1 b + e11 a * e2 b + e15 a * e3 b)
     (e0 a * e4 b + e4 a * e5 b + e8 a * e6 b + e12 a * e7 b)
     (e1 a * e4 b + e5 a * e5 b + e9 a * e6 b + e13 a * e7 b)
     (e2 a * e4 b + e6 a * e5 b + e10 a * e6 b + e14 a * e7 b)
     (e3 a * e4 b + e7 a * e5 b + e11 a * e6 b + e15 a * e7 b)
     (e0 a * e8 b + e4 a * e9 b + e8 a * e10 b + e12 a * e11 b)
     (e1 a * e8 b + e5 a * e9 b + e9 a * e10 b + e13 a * e11 b)
     (e2 a * e8 b + e6 a * e9 b + e10 a * e10 b + e14 a * e11 b)
     (e3 a * e8 b + e7 a * e9 b + e11 a * e10 b + e15 a * e11 b)
     (e0 a * e12 b + e4 a * e13 b + e8 a * e14 b + e12 a * e15 b)
     (e1 a * e12 b + e5 a * e13 b + e9 a * e14 b + e13 a * e15 b)
     (e2 a * e12 b + e6 a * e13 b + e10 a * e14 b + e14 a * e15 b)
     (e3 a * e12 b + e7 a * e13 b + e11 a * e14 b + e15 a * e15 b).

(** A world matrix composed from position, rotation and scale is affine:
    its bottom row is (0, 0, 0, 1). *)
Definition affine (m : t) : Prop :=
  e3 m = 0 /\ e7 m = 0 /\ e11 m = 0 /\ e15 m = 1.

End Matrix4.

Module Vector3.

Record t : Type := mk { x : R; y : R; z : R }.

(** [Vector3.lerp (v, alpha)]: [this.x += (v.x - this.x) * alpha], and the
    same for [y] and [z]. *)
Definition lerp (this v : t) (alpha : R) : t :=
  mk (x this + (x v - x this) * alpha)
     (y this + (y v - y this) * alpha)
     (z this + (z v - z this) * alpha).

(** [Vector3.applyMatrix4 (m)]: multiply by the matrix and divide by the
    homogeneous coordinate. *)
Definition applyMatrix4 (this : t) (m : Matrix4.t) : t :=
  let w := 1 / (Matrix4.e3 m * x this + Matrix4.e7 m * y this
                + Matrix4.e11 m * z this + Matrix4.e15 m) in
  mk ((Matrix4.e0 m * x this + Matrix4.e4 m * y this
       + Matrix4.e8 m * z this + Matrix4.e12 m) * w)
     ((Matrix4.e1 m * x this + Matrix4.e5 m * y this
       + Matrix4.e9 m * z this + Matrix4.e13 m) * w)
     ((Matrix4.e2 m * x this + Matrix4.e6 m * y this
       + Matrix4.e10 m * z this + Matrix4.e14 m) * w).

(** [Vector3.length]. *)
Definition length (this : t) : R :=
  sqrt (x this * x this + y this * y this + z this * z this).

End Vector3.

Module Euler.

Record t : Type := mk { x : R; y : R; z : R }.

End Euler.

Module MathUtils.

(** [MathUtils.lerp (x, y, t) = (1 - t) * x + t * y]. *)
Definition lerp (x y t : R) : R := (1 - t) * x + t * y.

End MathUtils.

Module Object3D.

(** The part of a mesh or group that [Particle] reads and writes. *)
Record t : Type := mk {
  handle : Obj;
  position : Vector3.t;
  rotation : Euler.t;
  scale : Vector3.t
}.

Definition set_position (o : t) (p : Vector3.t) : t :=
  mk (handle o) p (rotation o) (scale o).

Definition set_rotation (o : t) (r : Euler.t) : t :=
  mk (handle o) (position o) r (scale o).

Definition set_scale (o : t) (s : Vector3.t) : t :=
  mk (handle o) (position o) (rotation o) s.

End Object3D.

(** ** Configuration ([CONFIG] in Scene3D.tsx, [ParticleConfig] in types.ts) *)

Record ParticleConfig : Type := mkParticleConfig {
  count : nat;
  dustCount : nat;
  treeHeight : R;
  treeRadius : R
}.

Definition CONFIG_particles : ParticleConfig :=
  mkParticleConfig 1200 2000 24 8.

(** [CONFIG.camera.z]. *)
Definition CONFIG_camera_z : R := 50.

(** [Math.pow (x, y)] for a base [x >= 0] and an exponent [y > 0]:
    [Math.pow (0, y)] is [0]. *)
Definition Math_pow (x y : R) : R :=
  if Req_dec_T x 0 then 0 else Rpower x y.

(** ** class Particle *)

Module Particle.

Record t : Type := mk {
  mesh : Object3D.t;
  type : string;
  isDust : bool;
  posTree : Vector3.t;
  posScatter : Vector3.t;
  baseScale : R;
  spinSpeed : Vector3.t;
  id : R
}.

(** The six values returned by the successive [Math.random ()] calls of
    [calculatePositions], in program order. *)
Record Draws : Type := mkDraws {
  rnd_t : R;        (* let t = Math.random () *)
  rnd_phase : R;    (* ... + Math.random () * Math.PI *)
  rnd_jitter : R;   (* 0.8 + Math.random () * 0.4 *)
  rnd_shell : R;    (* 15 + Math.random () * 25, or 10 + Math.random () * 15 *)
  rnd_theta : R;    (* Math.random () * Math.PI * 2 *)
  rnd_phi : R       (* Math.acos (2 * Math.random () - 1) *)
}.

(** Local [rScatter] of [calculatePositions]. *)
Definition rScatter (dust : bool) (u : R) : R :=
  if dust then 15 + u * 25 else 10 + u * 15.

(** Local [theta] and [phi] of [calculatePositions]. *)
Definition theta (u : R) : R := u * PI * 2.

Definition phi (u : R) : R := acos (2 * u - 1).

Definition calculatePositions (d : Draws) (this : t) : t :=
  (* TREE SHAPE: Spiral *)
  let h := treeHeight CONFIG_particles in
  let halfH := h / 2 in
  let t0 := rnd_t d in
  let t1 := Math_pow t0 0.8 in
  let y := t1 * h - halfH in
  let rMax0 := treeRadius CONFIG_particles * (1.0 - t1) in
  let rMax := if Rlt_dec rMax0 0.5 then 0.5 else rMax0 in
  let angle := t1 * 50 * PI + rnd_phase d * PI in
  let r := rMax * (0.8 + rnd_jitter d * 0.4) in
  let posTree' := Vector3.mk (cos angle * r) y (sin angle * r) in
  (* SCATTER SHAPE: Large Cloud/Sphere *)
  let rS := rScatter (isDust this) (rnd_shell d) in
  let th := theta (rnd_theta d) in
  let ph := phi (rnd_phi d) in
  let posScatter' :=
    Vector3.mk (rS * sin ph * cos th) (rS * sin ph * sin th) (rS * cos ph) in
  mk (mesh this) (type this) (isDust this) posTree' posScatter'
     (baseScale this) (spinSpeed this) (id this).

(** [constructor (mesh, type, isDust)].  [rid] and [sx], [sy], [sz] are the
    four [Math.random ()] values drawn before [calculatePositions]. *)
Definition new (mesh0 : Object3D.t) (type0 : string) (isDust0 : bool)
    (rid sx sy sz : R) (d : Draws) : t :=
  let speedMult := if String.eqb type0 "PHOTO" then 0.3 else 2.0 in
  calculatePositions d
    (mk mesh0 type0 isDust0
        (Vector3.mk 0 0 0) (Vector3.mk 0 0 0)
        (Vector3.x (Object3D.scale mesh0))
        (Vector3.mk ((sx - 0.5) * speedMult) ((sy - 0.5) * speedMult)
                    ((sz - 0.5) * speedMult))
        rid).

(** Horizontal distance of a point from the vertical ([y]) axis. *)
Definition horizontalRadius (v : Vector3.t) : R :=
  sqrt (Vector3.x v * Vector3.x v + Vector3.z v * Vector3.z v).

(** Local [cameraPosLocal] of [update]: the point (0, 0, 38) taken into the
    group's local space. *)
Definition cameraPosLocal (mainGroupMatrix : Matrix4.t) : Vector3.t :=
  let invMatrix := Matrix4.invert mainGroupMatrix in
  Vector3.applyMatrix4 (Vector3.mk 0 0 38) invMatrix.

(** Local [cameraLocal] of [update]: the point (0, 0, CONFIG.camera.z) taken
    into the group's local space. *)
Definition cameraLocal (mainGroupMatrix : Matrix4.t) : Vector3.t :=
  let invMatrix := Matrix4.invert mainGroupMatrix in
  Vector3.applyMatrix4 (Vector3.mk 0 0 CONFIG_camera_z) invMatrix.

(** Local [isTarget] of [update]. *)
Definition isTarget (mode : AppMode) (focusTarget : option Obj) (this : t)
    : bool :=
  AppMode_eqb mode FOCUS
  && same_object (Object3D.handle (mesh this)) focusTarget.

(** Local [target] of [update]. *)
Definition target (mode : AppMode) (focusTarget : option Obj)
    (mainGroupMatrix : Matrix4.t) (this : t) : Vector3.t :=
  if AppMode_eqb mode SCATTER then posScatter this
  else if AppMode_eqb mode FOCUS then
    if same_object (Object3D.handle (mesh this)) focusTarget
    then cameraPosLocal mainGroupMatrix
    else posScatter this
  else posTree this.

(** Local [s] of [update]: the scale the mesh is eased toward. *)
Definition targetScale (mode : AppMode) (time : R) (focusTarget : option Obj)
    (this : t) : R :=
  if isDust this then
    if AppMode_eqb mode TREE then 0
    else baseScale this * (0.8 + 0.5 * sin (time * 3 + id this * 10))
  else if AppMode_eqb mode SCATTER && String.eqb (type this) "PHOTO" then
    baseScale this * 2.0
  else if AppMode_eqb mode FOCUS then
    if isTarget mode focusTarget this then 6.0 else baseScale this * 0.5
  else baseScale this.

Section Update.

(** [Object3D.lookAt] of three.js: the Euler angles the object gets when it
    is turned toward a point.  It is a function of the object (its position
    in particular) and of the point; the surrounding scene graph is fixed
    during one call. *)
Variable lookAt : Object3D.t -> Vector3.t -> Euler.t.

Definition update (dt : R) (mode : AppMode) (time : R)
    (focusTarget : option Obj) (mainGroupMatrix : Matrix4.t) (this : t) : t :=
  let tgt := target mode focusTarget mainGroupMatrix this in
  (* Smooth movement interpolation *)
  let isT := isTarget mode focusTarget this in
  let lerpSpeed := if isT then 3.5 else 1.8 in
  let m1 :=
    Object3D.set_position (mesh this)
      (Vector3.lerp (Object3D.position (mesh this)) tgt (lerpSpeed * dt)) in
  (* Rotation *)
  let rot := Object3D.rotation m1 in
  let m2 :=
    if AppMode_eqb mode SCATTER || (AppMode_eqb mode FOCUS && negb isT) then
      Object3D.set_rotation m1
        (Euler.mk (Euler.x rot + Vector3.x (spinSpeed this) * dt)
                  (Euler.y rot + Vector3.y (spinSpeed this) * dt)
                  (Euler.z rot + Vector3.z (spinSpeed this) * dt))
    else if AppMode_eqb mode TREE then
      Object3D.set_rotation m1
        (Euler.mk (MathUtils.lerp (Euler.x rot) 0 dt)
                  (Euler.y rot + 0.5 * dt)
                  (MathUtils.lerp (Euler.z rot) 0 dt))
    else if isT then
      Object3D.set_rotation m1 (lookAt m1 (cameraLocal mainGroupMatrix))
    else m1 in
  (* Scale Logic *)
  let s := targetScale mode time focusTarget this in
  let m3 :=
    Object3D.set_scale m2
      (Vector3.lerp (Object3D.scale m2) (Vector3.mk s s s) (3.0 * dt)) in
  mk m3 (type this) (isDust this) (posTree this) (posScatter this)
     (baseScale this) (spinSpeed this) (id this).

(** [n] successive frames with the same inputs except the clock: frame [k]
    (counted from the last) is called with elapsed time [time k]. *)
Fixpoint updates (n : nat) (dt : R) (mode : AppMode) (time : nat -> R)
    (focusTarget : option Obj) (mainGroupMatrix : Matrix4.t) (this : t) : t :=
  match n with
  | O => this
  | S k =>
      updates k dt mode time focusTarget mainGroupMatrix
        (update dt mode (time k) focusTarget mainGroupMatrix this)
  end.

End Update.

End Particle.

(** ** The Scene3D component: shared refs, gesture classifier, click handler *)

Module Landmark.

(** A normalized hand landmark of the detector ([z] is not read). *)
Record t : Type := mk { x : Q; y : Q }.

End Landmark.

Module Hand.

(** The value held by [handRef]. *)
Record t : Type := mk { detected : bool; x : Q; y : Q }.

End Hand.

Module Mouse.

(** The value held by [mouseRef]. *)
Record t : Type := mk { x : Q; y : Q }.

End Mouse.

Module Scene3D.

Local Open Scope Q_scope.

(** The refs of the component and the part of the three.js object graph the
    handlers read: the [parent] field of every object, and the next unused
    handle (objects are created with [new]). *)
Record State : Type := mkState {
  modeRef : AppMode;
  particlesRef : list Particle.t;
  mainGroupRef : option Obj;
  photoGroupRef : option Obj;
  focusTargetRef : option Obj;
  mouseRef : Mouse.t;
  handRef : Hand.t;
  parent : Obj -> option Obj;
  nextObj : Obj
}.

Definition set_mode (st : State) (m : AppMode) : State :=
  mkState m (particlesRef st) (mainGroupRef st) (photoGroupRef st)
          (focusTargetRef st) (mouseRef st) (handRef st) (parent st)
          (nextObj st).

Definition set_focus (st : State) (f : option Obj) : State :=
  mkState (modeRef st) (particlesRef st) (mainGroupRef st) (photoGroupRef st)
          f (mouseRef st) (handRef st) (parent st) (nextObj st).

Definition set_hand (st : State) (h : Hand.t) : State :=
  mkState (modeRef st) (particlesRef st) (mainGroupRef st) (photoGroupRef st)
          (focusTargetRef st) (mouseRef st) h (parent st) (nextObj st).

Definition set_mouse (st : State) (m : Mouse.t) : State :=
  mkState (modeRef st) (particlesRef st) (mainGroupRef st) (photoGroupRef st)
          (focusTargetRef st) m (handRef st) (parent st) (nextObj st).

(** How a handler ends: normally, or by a [TypeError] (a property read on
    [undefined]); in both cases the writes made so far stay. *)
Inductive Outcome : Type :=
| Done (st : State)
| Threw (st : State).

Definition final (o : Outcome) : State :=
  match o with Done st => st | Threw st => st end.

(** [a < b] on numbers. *)
Definition Qltb (a b : Q) : bool :=
  match a ?= b with Lt => true | _ => false end.

(** [a === b] on values that are an object or [null]. *)
Definition ref_eqb (a b : option Obj) : bool :=
  match a, b with
  | Some u, Some v => Nat.eqb u v
  | None, None => true
  | _, _ => false
  end.

(** [arr[i]] for a number [i] that is an integer: [undefined] outside the
    array. *)
Definition index {A : Type} (arr : list A) (i : Z) : option A :=
  if (i <? 0)%Z then None else nth_error arr (Z.to_nat i).

Definition FIST_THRESHOLD : Q := 0.25.
Definition OPEN_THRESHOLD : Q := 0.45.
Definition PINCH_THRESHOLD : Q := 0.08.

(** [p => p.type === 'PHOTO']. *)
Definition isPhoto (p : Particle.t) : bool :=
  String.eqb (Particle.type p) "PHOTO".

(** [Math.floor (Math.random () * photos.length)] for the draw [rnd]. *)
Definition randomIndex (rnd : Q) (n : nat) : Z :=
  Qfloor (rnd * inject_Z (Z.of_nat n)).

(** The STATE MACHINE block of [processGestures]; [rnd] is the value
    [Math.random ()] returns if it is called. *)
Definition stateMachine (pinchDist avgDistToWrist rnd : Q) (st : State)
    : Outcome :=
  if Qltb avgDistToWrist FIST_THRESHOLD then
    (* FIST DETECTED -> TREE *)
    if negb (AppMode_eqb (modeRef st) TREE)
    then Done (set_focus (set_mode st TREE) None)
    else Done st
  else if Qltb pinchDist PINCH_THRESHOLD then
    (* GRAB/PINCH DETECTED -> FOCUS *)
    if negb (AppMode_eqb (modeRef st) FOCUS) then
      let st1 := set_mode st FOCUS in
      let photos := filter isPhoto (particlesRef st1) in
      if (0 <? List.length photos)%nat then
        match index photos (randomIndex rnd (List.length photos)) with
        | Some randomPhoto =>
            Done (set_focus st1
                    (Some (Object3D.handle (Particle.mesh randomPhoto))))
        | None => Threw st1
        end
      else Done st1
    else Done st
  else if Qltb OPEN_THRESHOLD avgDistToWrist then
    (* OPEN HAND -> SCATTER *)
    let st1 :=
      if negb (AppMode_eqb (modeRef st) SCATTER)
         && negb (AppMode_eqb (modeRef st) FOCUS)
      then set_focus (set_mode st SCATTER) None
      else st in
    let st2 :=
      if AppMode_eqb (modeRef st1) FOCUS
      then set_focus (set_mode st1 SCATTER) None
      else st1 in
    Done st2
  else Done st.

Section Gestures.

(** [Math.hypot] on two arguments. *)
Variable hypot : Q -> Q -> Q.

(** Locals [pinchDist] and [avgDistToWrist] of [processGestures]; [None]
    when a landmark that is read is missing (the read throws). *)
Definition metrics (lm : list Landmark.t) : option (Q * Q) :=
  match nth_error lm 0, nth_error lm 4, nth_error lm 8,
        nth_error lm 12, nth_error lm 16, nth_error lm 20 with
  | Some wrist, Some thumbTip, Some indexTip,
    Some middleTip, Some ringTip, Some pinkyTip =>
      let pinchDist :=
        hypot (Landmark.x thumbTip - Landmark.x indexTip)
              (Landmark.y thumbTip - Landmark.y indexTip) in
      let tips := [indexTip; middleTip; ringTip; pinkyTip] in
      let avgDistToWrist :=
        fold_left
          (fun acc t =>
             acc + hypot (Landmark.x t - Landmark.x wrist)
                         (Landmark.y t - Landmark.y wrist))
          tips 0 in
      Some (pinchDist, avgDistToWrist / 4)
  | _, _, _, _, _, _ => None
  end.

(** [processGestures (result)], with [landmarks] the value of
    [result.landmarks] ([None] for [undefined]). *)
Definition processGestures (landmarks : option (list (list Landmark.t)))
    (rnd : Q) (st : State) : Outcome :=
  match landmarks with
  | Some (lm :: _) =>
      let h := handRef st in
      let st1 := set_hand st (Hand.mk true (Hand.x h) (Hand.y h)) in
      match nth_error lm 9 with
      | None => Threw st1
      | Some l9 =>
          let st2 :=
            set_hand st1
              (Hand.mk true ((1 - Landmark.x l9 - 0.5) * 2)
                            ((1 - Landmark.y l9 - 0.5) * 2)) in
          match metrics lm with
          | None => Threw st2
          | Some (pinchDist, avgDistToWrist) =>
              stateMachine pinchDist avgDistToWrist rnd st2
          end
      end
  | _ =>
      let h := handRef st in
      Done (set_hand st (Hand.mk false (Hand.x h) (Hand.y h)))
  end.

End Gestures.

(** A detection frame that shows a hand whose landmarks give the two
    measures [pinchDist] and [avgDistToWrist]. *)
Definition detects (hypot : Q -> Q -> Q)
    (landmarks : option (list (list Landmark.t)))
    (pinchDist avgDistToWrist : Q) : Prop :=
  exists lm rest l9,
    landmarks = Some (lm :: rest)
    /\ nth_error lm 9 = Some l9
    /\ metrics hypot lm = Some (pinchDist, avgDistToWrist).

(** Locals [photoParticles] and [photoMeshes] of [onClick] ([photos] in
    [processGestures]). *)
Definition photos (st : State) : list Particle.t :=
  filter isPhoto (particlesRef st).

Definition photoMeshes (st : State) : list Obj :=
  map (fun p => Object3D.handle (Particle.mesh p)) (photos st).

(** The [while] loop of [onClick]:
    [while (targetGroup && targetGroup.parent !== photoGroupRef.current)
       targetGroup = targetGroup.parent].
    [None] when [fuel] iterations were not enough. *)
Fixpoint climb (fuel : nat) (st : State) (targetGroup : option Obj)
    : option (option Obj) :=
  match targetGroup with
  | None => Some None
  | Some o =>
      if ref_eqb (parent st o) (photoGroupRef st) then Some (Some o)
      else
        match fuel with
        | O => None
        | S fuel' => climb fuel' st (parent st o)
        end
  end.

(** "Cycle modes on click if no photo hit". *)
Definition cycleModes (st : State) : State :=
  if AppMode_eqb (modeRef st) FOCUS then set_focus (set_mode st SCATTER) None
  else if AppMode_eqb (modeRef st) TREE then set_mode st SCATTER
  else set_mode st TREE.

(** [onClick (e)].  [intersectObjects roots] is the value of
    [raycaster.intersectObjects (roots, true)] for the ray through the click
    point: the objects hit, nearest first.  [None] when the loop ran out of
    [fuel]. *)
Definition onClick (fuel : nat) (intersectObjects : list Obj -> list Obj)
    (st : State) : option State :=
  let intersects := intersectObjects (photoMeshes st) in
  match intersects with
  | first :: _ =>
      match climb fuel st (Some first) with
      | None => None
      | Some (Some targetGroup) =>
          Some (set_mode (set_focus st (Some targetGroup)) FOCUS)
      | Some None => Some (cycleModes st)
      end
  | [] => Some (cycleModes st)
  end.

(** One write to the shared mode and focus target: a detection frame handled
    by [processGestures], or a click handled by [onClick]. *)
Inductive step (hypot : Q -> Q -> Q) : State -> State -> Prop :=
| step_gesture landmarks rnd st :
    step hypot st (final (processGestures hypot landmarks rnd st))
| step_click fuel intersectObjects st st' :
    onClick fuel intersectObjects st = Some st' ->
    step hypot st st'.

Inductive reachable (hypot : Q -> Q -> Q) (st0 : State) : State -> Prop :=
| reach_init : reachable hypot st0 st0
| reach_step st st' :
    reachable hypot st0 st -> step hypot st st' -> reachable hypot st0 st'.

(** The initial values of the refs that the mode machine writes. *)
Definition initial (st : State) : Prop :=
  modeRef st = TREE /\ focusTargetRef st = None.

(** [o] is [g] or lies below [g] in the object graph. *)
Inductive below (st : State) (g : Obj) : Obj -> Prop :=
| below_self : below st g g
| below_child o o' : parent st o = Some o' -> below st g o' -> below st g o.

(** A sequence of clicks, one ray per click. *)
Fixpoint clicks (fuel : nat) (rays : list (list Obj -> list Obj))
    (st : State) : option State :=
  match rays with
  | [] => Some st
  | ray :: rays' =>
      match onClick fuel ray st with
      | Some st' => clicks fuel rays' st'
      | None => None
      end
  end.

(** [onMouseMove (e)]; the last two arguments are [window.innerWidth] and
    [window.innerHeight]. *)
Definition onMouseMove (clientX clientY innerWidth innerHeight : Q)
    (st : State) : State :=
  if negb (Hand.detected (handRef st)) then
    set_mouse st
      (Mouse.mk ((clientX / innerWidth) * 2 - 1)
                (- (clientY / innerHeight) * 2 + 1))
  else st.

(** [predictWebcam ()].  [video] is [video.currentTime] ([None] when there
    is no video element), [handLandmarker] tells whether the detector
    exists, [landmarks] is the [landmarks] field of what
    [handLandmarker.detectForVideo] returns for the current frame.  The
    result is the new value of [lastVideoTime] and the outcome of the
    call. *)
Definition predictWebcam (hypot : Q -> Q -> Q) (video : option Q)
    (handLandmarker : bool) (landmarks : option (list (list Landmark.t)))
    (rnd : Q) (lastVideoTime : Q) (st : State) : Q * Outcome :=
  match video with
  | Some currentTime =>
      if handLandmarker && negb (Qeq_bool currentTime lastVideoTime)
      then (currentTime, processGestures hypot landmarks rnd st)
      else (lastVideoTime, Done st)
  | None => (lastVideoTime, Done st)
  end.

(** [addPhotoToScene (texture)].  The three objects made with [new] get the
    next three handles: the frame mesh, the picture mesh and the group.
    [rid], [sx], [sy], [sz] and [d] are the values [Math.random ()] returns
    inside [new Particle (...)]. *)
Definition addPhotoToScene (rid sx sy sz : R) (d : Particle.Draws)
    (st : State) : State :=
  match photoGroupRef st, mainGroupRef st with
  | Some pg, Some _ =>
      let frame := nextObj st in
      let photo := S (nextObj st) in
      let group := S (S (nextObj st)) in
      let s := 0.8%R in
      let groupObj :=
        Object3D.mk group (Vector3.mk 0 0 0) (Euler.mk 0 0 0)
                    (Vector3.mk s s s) in
      let parent1 := fun o : Obj =>
        if Nat.eqb o group then Some pg
        else if Nat.eqb o frame || Nat.eqb o photo then Some group
        else parent st o in
      (* Create particle logic for it *)
      let p := Particle.new groupObj "PHOTO" false rid sx sy sz d in
      (* group.position.copy (p.posScatter) *)
      let p1 :=
        Particle.mk
          (Object3D.set_position (Particle.mesh p) (Particle.posScatter p))
          (Particle.type p) (Particle.isDust p) (Particle.posTree p)
          (Particle.posScatter p) (Particle.baseScale p)
          (Particle.spinSpeed p) (Particle.id p) in
      mkState (modeRef st) (particlesRef st ++ [p1]) (mainGroupRef st)
              (photoGroupRef st) (focusTargetRef st) (mouseRef st)
              (handRef st) parent1 (S (S (S (nextObj st))))
  | _, _ => st
  end.

(** Every handle in use is below the next unused one. *)
Definition allocated (st : State) : Prop :=
  (forall p, In p (particlesRef st) ->
             (Object3D.handle (Particle.mesh p) < nextObj st)%nat)
  /\ (forall g, photoGroupRef st = Some g -> (g < nextObj st)%nat)
  /\ (forall o o', parent st o = Some o' ->
                   (o < nextObj st)%nat /\ (o' < nextObj st)%nat).

(** The numbers the render loop owns: [mainGroup.rotation.x] and [.y],
    [targetRotationRef.current.y] and [star.rotation.y]. *)
Record Rig : Type := mkRig {
  rotationX : R;
  rotationY : R;
  targetRotationY : R;
  starRotationY : R
}.

(** The ROTATION LOGIC block of [animate] and the turn of the star. *)
Definition rotate (dt : R) (st : State) (rig : Rig) : Rig :=
  let hand := handRef st in
  let mouse := mouseRef st in
  if Hand.detected hand
     && (AppMode_eqb (modeRef st) SCATTER || AppMode_eqb (modeRef st) FOCUS)
  then
    (* Hand Gesture controls rotation in Scatter/Focus *)
    let targetY := (Q2R (Hand.x hand) * PI * 0.8)%R in
    let targetX := (Q2R (Hand.y hand) * PI * 0.3)%R in
    mkRig (rotationX rig + (targetX - rotationX rig) * 3.0 * dt)%R
          (rotationY rig + (targetY - rotationY rig) * 3.0 * dt)%R
          (targetRotationY rig + (targetY - targetRotationY rig) * 4.0 * dt)%R
          (starRotationY rig + 0.5 * dt)%R
  else
    (* Fallback to Mouse or Idle Animation *)
    let targetY := (Q2R (Mouse.x mouse) * PI * 0.5)%R in
    let targetX := (Q2R (Mouse.y mouse) * PI * 0.2)%R in
    if AppMode_eqb (modeRef st) TREE then
      (* Auto rotate the tree *)
      mkRig (rotationX rig + (targetX - rotationX rig) * 2.0 * dt)%R
            (rotationY rig + 0.2 * dt)%R
            (targetRotationY rig)
            (starRotationY rig + 0.5 * dt)%R
    else
      (* Gentle drift in scatter *)
      mkRig (rotationX rig + (targetX - rotationX rig) * 2.0 * dt)%R
            (rotationY rig + (targetY - rotationY rig) * 2.0 * dt)%R
            (targetRotationY rig + (targetY - targetRotationY rig) * 2.0 * dt)%R
            (starRotationY rig + 0.5 * dt)%R.

(** One call of [animate]: [dt] and [time] are the clock's delta and elapsed
    time, [matrixWorld] is [mainGroup.matrixWorld] as the last render left
    it. *)
Definition animate (lookAt : Object3D.t -> Vector3.t -> Euler.t)
    (dt time : R) (matrixWorld : Matrix4.t) (st : State) (rig : Rig)
    : State * Rig :=
  let rig1 := rotate dt st rig in
  let particles1 :=
    map (Particle.update lookAt dt (modeRef st) time (focusTargetRef st)
           matrixWorld)
        (particlesRef st) in
  (mkState (modeRef st) particles1 (mainGroupRef st) (photoGroupRef st)
           (focusTargetRef st) (mouseRef st) (handRef st) (parent st)
           (nextObj st),
   rig1).

End Scene3D.

(** [createStarShape (outerRadius, innerRadius, points)]: the points of the
    path, the [moveTo] point first and then the [2 * points] points of the
    [lineTo] calls. *)
Definition createStarShape (outerRadius innerRadius : R) (points : nat)
    : list (R * R) :=
  let step := PI / INR points in
  (0, outerRadius)
  :: map (fun i : nat =>
            let r := if Nat.eqb (i mod 2) 0 then outerRadius
                     else innerRadius in
            let a := INR i * step in
            (sin a * r, cos a * r))
         (seq 0 (2 * points)).

(** ** Construction of the entities (the PARTICLES part of the scene effect)

    [rnd k] is the value of the [k]-th call of [Math.random ()] made while
    the entities are built, and [h0] the handle of the first mesh; every
    [new THREE.Mesh] or [new THREE.Group] takes the next handle. *)

(** The type chosen from [rand] in the ornament loop. *)
Definition ornamentType (rand : R) : string :=
  if Rlt_dec rand 0.4 then "BOX"
  else if Rlt_dec rand 0.7 then "GOLD_BOX"
  else if Rlt_dec rand 0.92 then "GOLD_SPHERE"
  else if Rlt_dec rand 0.97 then "RED"
  else "CANE".

(** [new Particle (mesh, type, isDust)] with the ten draws starting at
    [k]. *)
Definition newParticleAt (rnd : nat -> R) (k : nat) (mesh0 : Object3D.t)
    (type0 : string) (isDust0 : bool) : Particle.t :=
  Particle.new mesh0 type0 isDust0
    (rnd k) (rnd (k + 1)%nat) (rnd (k + 2)%nat) (rnd (k + 3)%nat)
    (Particle.mkDraws (rnd (k + 4)%nat) (rnd (k + 5)%nat) (rnd (k + 6)%nat)
                      (rnd (k + 7)%nat) (rnd (k + 8)%nat) (rnd (k + 9)%nat)).

(** One turn of the ornament loop: fifteen draws starting at [k]. *)
Definition ornament (rnd : nat -> R) (h : Obj) (k : nat) : Particle.t :=
  let rand := rnd k in
  let s := 0.4 + rnd (k + 1)%nat * 0.5 in
  let mesh0 :=
    Object3D.mk h (Vector3.mk 0 0 0)
      (Euler.mk (rnd (k + 2)%nat * 6) (rnd (k + 3)%nat * 6)
                (rnd (k + 4)%nat * 6))
      (Vector3.mk s s s) in
  newParticleAt rnd (k + 5)%nat mesh0 (ornamentType rand) false.

(** One turn of the dust loop: eleven draws starting at [k]. *)
Definition dust (rnd : nat -> R) (h : Obj) (k : nat) : Particle.t :=
  let s := 0.5 + rnd k in
  let mesh0 :=
    Object3D.mk h (Vector3.mk 0 0 0) (Euler.mk 0 0 0) (Vector3.mk s s s) in
  newParticleAt rnd (k + 1)%nat mesh0 "DUST" true.

(** The default photo: its group is the third object made for it, after the
    frame and the picture. *)
Definition defaultPhoto (rnd : nat -> R) (h : Obj) (k : nat) : Particle.t :=
  let mesh0 :=
    Object3D.mk (h + 2)%nat (Vector3.mk 0 0 0) (Euler.mk 0 0 0)
                (Vector3.mk 0.8 0.8 0.8) in
  newParticleAt rnd k mesh0 "PHOTO" false.

(** [generatedParticles] for [n] ornaments and [m] dust specks. *)
Definition generateParticles (rnd : nat -> R) (h0 : Obj) (n m : nat)
    : list Particle.t :=
  map (fun i => ornament rnd (h0 + i)%nat (15 * i)%nat) (seq 0 n)
  ++ map (fun j => dust rnd (h0 + n + j)%nat (15 * n + 11 * j)%nat) (seq 0 m)
  ++ [defaultPhoto rnd (h0 + n + m)%nat (15 * n + 11 * m)%nat].

Definition generatedParticles (rnd : nat -> R) (h0 : Obj)
    : list Particle.t :=
  generateParticles rnd h0 (count CONFIG_particles)
                    (dustCount CONFIG_particles).

(** ** Sample data on which the definitions are run *)

(** [Math.hypot (a, b)] when one of its arguments is 0. *)
Definition hypot_axis (a b : Q) : Q := (Qabs a + Qabs b)%Q.

(** A hand of 21 landmarks on the line [y = 0.5]: the thumb tip at
    [thumbX], the four finger tips at [tipX], everything else (the wrist in
    particular) at [x = 0.5]. *)
Definition sampleHand (thumbX tipX : Q) : list Landmark.t :=
  map (fun i : nat =>
         if Nat.eqb i 4 then Landmark.mk thumbX 0.5%Q
         else if existsb (Nat.eqb i) [8; 12; 16; 20]%nat
              then Landmark.mk tipX 0.5%Q
              else Landmark.mk 0.5%Q 0.5%Q)
      (seq 0 21).

Definition sampleMesh (h : Obj) : Object3D.t :=
  Object3D.mk h (Vector3.mk 0 0 0) (Euler.mk 0 0 0) (Vector3.mk 1 1 1).

Definition sampleParticle (h : Obj) (type : string) (dust : bool)
    : Particle.t :=
  Particle.mk (sampleMesh h) type dust (Vector3.mk 0 0 0) (Vector3.mk 0 0 0)
              1 (Vector3.mk 0 0 0) 0.

(** A small scene: 0 is the scene, 1 the main group, 2 the photo group;
    3 an ornament and 4 a dust mesh in the main group; 10 and 20 two photo
    groups in the photo group, with frame and picture meshes 11, 12 and
    21, 22. *)
Definition sampleParent (o : Obj) : option Obj :=
  match o with
  | 1 => Some 0
  | 2 | 3 | 4 => Some 1
  | 10 | 20 => Some 2
  | 11 | 12 => Some 10
  | 21 | 22 => Some 20
  | _ => None
  end%nat.

Definition sampleDepth (o : Obj) : nat :=
  match o with
  | 1 => 1
  | 2 | 3 | 4 => 2
  | 10 | 20 => 3
  | 11 | 12 | 21 | 22 => 4
  | _ => 0
  end%nat.

Definition sampleState (mode : AppMode) (focus : option Obj)
    : Scene3D.State :=
  Scene3D.mkState mode
    [sampleParticle 3%nat "BOX" false; sampleParticle 4%nat "DUST" true;
     sampleParticle 10%nat "PHOTO" false; sampleParticle 20%nat "PHOTO" false]
    (Some 1%nat) (Some 2%nat) focus
    (Mouse.mk 0%Q 0%Q) (Hand.mk false 0%Q 0%Q) sampleParent 23%nat.

(** A ray that hits the picture mesh 12 and then the frame mesh 11, and a
    ray that hits nothing. *)
Definition sampleHit (roots : list Obj) : list Obj := [12; 11]%nat.

Definition sampleMiss (roots : list Obj) : list Obj := [].

Definition sampleDraws : Particle.Draws :=
  Particle.mkDraws 0.5 0.5 0.5 0.5 0.5 0.5.

(** A photo entity whose renderable (handle 10) is tilted about the x
    axis. *)
Definition tiltedPhoto : Particle.t :=
  Particle.mk
    (Object3D.mk 10%nat (Vector3.mk 0 0 0) (Euler.mk 1 0 0) (Vector3.mk 1 1 1))
    "PHOTO" false (Vector3.mk 0 0 0) (Vector3.mk 0 0 0)
    1 (Vector3.mk 0 0 0) 0.

(** Turning an object toward a point straight ahead of it on the z axis of
    an unrotated parent leaves it unrotated. *)
Definition sampleLookAt (o : Object3D.t) (p : Vector3.t) : Euler.t :=
  Euler.mk 0 0 0.

(** The refs as the scene effect leaves them: mode TREE, no focus target,
    the generated entities (every draw 0.5, first mesh handle 3); 1 is the
    main group and 2 the photo group. *)
Definition startState : Scene3D.State :=
  Scene3D.mkState TREE (generatedParticles (fun _ => 0.5) 3%nat)
    (Some 1%nat) (Some 2%nat) None
    (Mouse.mk 0%Q 0%Q) (Hand.mk false 0%Q 0%Q)
    (fun o : Obj =>
       if Nat.eqb o 1 then Some 0%nat
       else if Nat.eqb o 2 then Some 1%nat
       else if Nat.ltb o 3 then None
       else if Nat.ltb o 3203 then Some 1%nat
       else if Nat.ltb o 3205 then Some 3205%nat
       else if Nat.eqb o 3205 then Some 2%nat
       else None)
    3206%nat.

(* ================================================================= *)
(** * Part II: properties *)
(* ================================================================= *)

(** ** Comparisons and the random index *)

Section Rationals.

Local Open Scope Q_scope.

Lemma Qltb_true (a b : Q) : Scene3D.Qltb a b = true <-> a < b.
Proof.
  unfold Scene3D.Qltb. rewrite Qlt_alt.
  destruct (a ?= b); split; intro H; congruence.
Qed.

Lemma Qltb_false (a b : Q) : Scene3D.Qltb a b = false <-> ~ a < b.
Proof.
  rewrite <- Qltb_true. destruct (Scene3D.Qltb a b); split; intro H;
    congruence || (exfalso; apply H; reflexivity).
Qed.

(** For a draw in [0, 1) the index is a position of the array. *)
Lemma randomIndex_range (rnd : Q) (n : nat) :
  0 <= rnd -> rnd < 1 -> (0 < n)%nat ->
  (0 <= Scene3D.randomIndex rnd n < Z.of_nat n)%Z.
Proof.
  intros H0 H1 Hn. unfold Scene3D.randomIndex.
  set (N := inject_Z (Z.of_nat n)).
  assert (HN : 0 < N).
  { unfold N. replace 0 with (inject_Z 0) by reflexivity.
    rewrite <- Zlt_Qlt. lia. }
  split.
  - replace 0%Z with (Qfloor (inject_Z 0)) by apply Qfloor_Z.
    apply Qfloor_resp_le. change (inject_Z 0) with 0.
    apply Qmult_le_0_compat; [exact H0 | apply Qlt_le_weak; exact HN].
  - rewrite Zlt_Qlt. fold N.
    apply Qle_lt_trans with (rnd * N); [apply Qfloor_le|].
    setoid_replace N with (1 * N) at 2 by ring.
    apply Qmult_lt_compat_r; assumption.
Qed.

(** The index is [i] exactly for the draws of [[i / n, (i + 1) / n)]: every
    position is chosen on an interval of the same length [1 / n]. *)
Lemma randomIndex_uniform (rnd : Q) (n : nat) (i : Z) :
  (0 < n)%nat ->
  Scene3D.randomIndex rnd n = i <->
  inject_Z i / inject_Z (Z.of_nat n) <= rnd
  /\ rnd < inject_Z (i + 1) / inject_Z (Z.of_nat n).
Proof.
  intros Hn. unfold Scene3D.randomIndex.
  set (N := inject_Z (Z.of_nat n)).
  assert (HN : 0 < N).
  { unfold N. replace 0 with (inject_Z 0) by reflexivity.
    rewrite <- Zlt_Qlt. lia. }
  split.
  - intros <-. split.
    + apply Qle_shift_div_r; [exact HN | apply Qfloor_le].
    + apply Qlt_shift_div_l; [exact HN | apply Qlt_floor].
  - intros [Hlo Hhi].
    assert (Hlo' : inject_Z i <= rnd * N).
    { apply Qle_trans with (inject_Z i / N * N).
      - field_simplify (inject_Z i / N * N).
        + apply Qle_refl.
        + intro E. rewrite E in HN. discriminate.
      - apply Qmult_le_compat_r; [exact Hlo | apply Qlt_le_weak; exact HN]. }
    assert (Hhi' : rnd * N < inject_Z (i + 1)).
    { apply Qlt_le_trans with (inject_Z (i + 1) / N * N).
      - apply Qmult_lt_compat_r; assumption.
      - field_simplify (inject_Z (i + 1) / N * N).
        + apply Qle_refl.
        + intro E. rewrite E in HN. discriminate. }
    pose proof (Qfloor_le (rnd * N)) as F1.
    pose proof (Qlt_floor (rnd * N)) as F2.
    assert (G1 : (Qfloor (rnd * N) < i + 1)%Z).
    { rewrite Zlt_Qlt. eapply Qle_lt_trans; eassumption. }
    assert (G2 : (i < Qfloor (rnd * N) + 1)%Z).
    { rewrite Zlt_Qlt. eapply Qle_lt_trans; eassumption. }
    lia.
Qed.

Lemma index_Some {A : Type} (arr : list A) (i : Z) :
  (0 <= i < Z.of_nat (List.length arr))%Z ->
  exists a, Scene3D.index arr i = Some a /\ In a arr.
Proof.
  intros [H0 H1]. unfold Scene3D.index.
  destruct (Z.ltb_spec i 0) as [?|_]; [lia|].
  destruct (nth_error arr (Z.to_nat i)) as [a|] eqn:E.
  - exists a. split; [reflexivity | eapply nth_error_In; exact E].
  - apply nth_error_None in E. lia.
Qed.

End Rationals.

(** ** The gesture classifier *)

Section Classifier.

Local Open Scope Q_scope.

Variable hypot : Q -> Q -> Q.

(** On a frame that shows a hand, [processGestures] writes the hand signal
    and then runs the state machine on the two measures. *)
Lemma processGestures_detects landmarks rnd st pinchDist avgDistToWrist :
  Scene3D.detects hypot landmarks pinchDist avgDistToWrist ->
  exists h,
    Scene3D.processGestures hypot landmarks rnd st
    = Scene3D.stateMachine pinchDist avgDistToWrist rnd (Scene3D.set_hand st h).
Proof.
  intros (lm & rest & l9 & -> & H9 & Hm).
  unfold Scene3D.processGestures. rewrite H9, Hm. eexists. reflexivity.
Qed.

Lemma stateMachine_fist pinchDist avgDistToWrist rnd st :
  avgDistToWrist < Scene3D.FIST_THRESHOLD ->
  Scene3D.stateMachine pinchDist avgDistToWrist rnd st
  = if negb (AppMode_eqb (Scene3D.modeRef st) TREE)
    then Scene3D.Done (Scene3D.set_focus (Scene3D.set_mode st TREE) None)
    else Scene3D.Done st.
Proof.
  intros H. apply Qltb_true in H. unfold Scene3D.stateMachine.
  rewrite H. reflexivity.
Qed.

Lemma stateMachine_pinch pinchDist avgDistToWrist rnd st :
  ~ avgDistToWrist < Scene3D.FIST_THRESHOLD ->
  pinchDist < Scene3D.PINCH_THRESHOLD ->
  Scene3D.stateMachine pinchDist avgDistToWrist rnd st
  = if negb (AppMode_eqb (Scene3D.modeRef st) FOCUS) then
      let st1 := Scene3D.set_mode st FOCUS in
      if (0 <? List.length (Scene3D.photos st))%nat then
        match Scene3D.index (Scene3D.photos st)
                (Scene3D.randomIndex rnd (List.length (Scene3D.photos st)))
        with
        | Some randomPhoto =>
            Scene3D.Done
              (Scene3D.set_focus st1
                 (Some (Object3D.handle (Particle.mesh randomPhoto))))
        | None => Scene3D.Threw st1
        end
      else Scene3D.Done st1
    else Scene3D.Done st.
Proof.
  intros H1 H2. apply Qltb_false in H1. apply Qltb_true in H2.
  unfold Scene3D.stateMachine. rewrite H1, H2. reflexivity.
Qed.

Lemma stateMachine_open pinchDist avgDistToWrist rnd st :
  ~ avgDistToWrist < Scene3D.FIST_THRESHOLD ->
  ~ pinchDist < Scene3D.PINCH_THRESHOLD ->
  Scene3D.OPEN_THRESHOLD < avgDistToWrist ->
  Scene3D.stateMachine pinchDist avgDistToWrist rnd st
  = match Scene3D.modeRef st with
    | SCATTER => Scene3D.Done st
    | _ => Scene3D.Done (Scene3D.set_focus (Scene3D.set_mode st SCATTER) None)
    end.
Proof.
  intros H1 H2 H3.
  apply Qltb_false in H1. apply Qltb_false in H2. apply Qltb_true in H3.
  unfold Scene3D.stateMachine. rewrite H1, H2, H3.
  destruct st as [m ps mg pg f mo h par nx]. destruct m; reflexivity.
Qed.

Lemma stateMachine_hold pinchDist avgDistToWrist rnd st :
  ~ avgDistToWrist < Scene3D.FIST_THRESHOLD ->
  ~ pinchDist < Scene3D.PINCH_THRESHOLD ->
  ~ Scene3D.OPEN_THRESHOLD < avgDistToWrist ->
  Scene3D.stateMachine pinchDist avgDistToWrist rnd st = Scene3D.Done st.
Proof.
  intros H1 H2 H3.
  apply Qltb_false in H1. apply Qltb_false in H2. apply Qltb_false in H3.
  unfold Scene3D.stateMachine. rewrite H1, H2, H3. reflexivity.
Qed.

(** C1.  On a detection whose openness is not below the fist threshold,
    whose pinch distance is not below the pinch threshold and whose openness
    is above OPEN_THRESHOLD, the classifier ends in SCATTER whatever the
    prior mode was; from FOCUS and from TREE it also clears the focus
    target, and from SCATTER it changes neither. *)
Theorem open_hand_scatters landmarks rnd st pinchDist avgDistToWrist :
  Scene3D.detects hypot landmarks pinchDist avgDistToWrist ->
  ~ avgDistToWrist < Scene3D.FIST_THRESHOLD ->
  ~ pinchDist < Scene3D.PINCH_THRESHOLD ->
  Scene3D.OPEN_THRESHOLD < avgDistToWrist ->
  exists st',
    Scene3D.processGestures hypot landmarks rnd st = Scene3D.Done st'
    /\ Scene3D.modeRef st' = SCATTER
    /\ (Scene3D.modeRef st = FOCUS -> Scene3D.focusTargetRef st' = None)
    /\ (Scene3D.modeRef st = TREE -> Scene3D.focusTargetRef st' = None)
    /\ (Scene3D.modeRef st = SCATTER ->
        Scene3D.focusTargetRef st' = Scene3D.focusTargetRef st).
Proof.
  intros Hd H1 H2 H3.
  destruct (processGestures_detects landmarks rnd st _ _ Hd) as [h ->].
  rewrite (stateMachine_open _ _ _ _ H1 H2 H3).
  destruct st as [m ps mg pg f mo h0 par nx]. cbn.
  destruct m; eexists; (split; [reflexivity|]); cbn;
    repeat split; intros; congruence.
Qed.

(** What a fist does to any values of the refs: the classifier ends in TREE
    whatever the pinch distance and the prior mode are; the focus target is
    cleared when the prior mode was not TREE and is left as it was when the
    mode already was TREE. *)
Lemma fist_resets_to_tree landmarks rnd st pinchDist avgDistToWrist :
  Scene3D.detects hypot landmarks pinchDist avgDistToWrist ->
  avgDistToWrist < Scene3D.FIST_THRESHOLD ->
  exists st',
    Scene3D.processGestures hypot landmarks rnd st = Scene3D.Done st'
    /\ Scene3D.modeRef st' = TREE
    /\ (Scene3D.modeRef st <> TREE -> Scene3D.focusTargetRef st' = None)
    /\ (Scene3D.modeRef st = TREE ->
        Scene3D.focusTargetRef st' = Scene3D.focusTargetRef st)
    /\ ((Scene3D.modeRef st = TREE -> Scene3D.focusTargetRef st = None) ->
        Scene3D.focusTargetRef st' = None).
Proof.
  intros Hd H1.
  destruct (processGestures_detects landmarks rnd st _ _ Hd) as [h ->].
  rewrite (stateMachine_fist _ _ _ _ H1).
  destruct st as [m ps mg pg f mo h0 par nx]. cbn.
  destruct m; eexists; (split; [reflexivity|]); cbn;
    repeat split; intros; try congruence; auto.
Qed.

(** C3.  On a detection with openness at or above FIST_THRESHOLD and pinch
    distance below PINCH_THRESHOLD: in FOCUS mode neither the mode nor the
    focus target changes; otherwise the mode becomes FOCUS, the focus target
    stays as it was when there is no photo entity, and for a draw in [0, 1)
    it becomes the renderable of the photo entity at position
    [floor (rnd * n)] of the [n] photo entities, a position that is [i]
    exactly for the draws of [[i / n, (i + 1) / n)]. *)
Theorem pinch_enters_focus landmarks rnd st pinchDist avgDistToWrist :
  Scene3D.detects hypot landmarks pinchDist avgDistToWrist ->
  Scene3D.FIST_THRESHOLD <= avgDistToWrist ->
  pinchDist < Scene3D.PINCH_THRESHOLD ->
  (Scene3D.modeRef st = FOCUS ->
   exists st',
     Scene3D.processGestures hypot landmarks rnd st = Scene3D.Done st'
     /\ Scene3D.modeRef st' = FOCUS
     /\ Scene3D.focusTargetRef st' = Scene3D.focusTargetRef st)
  /\ (Scene3D.modeRef st <> FOCUS -> Scene3D.photos st = [] ->
      exists st',
        Scene3D.processGestures hypot landmarks rnd st = Scene3D.Done st'
        /\ Scene3D.modeRef st' = FOCUS
        /\ Scene3D.focusTargetRef st' = Scene3D.focusTargetRef st)
  /\ (Scene3D.modeRef st <> FOCUS -> Scene3D.photos st <> [] ->
      0 <= rnd -> rnd < 1 ->
      let n := List.length (Scene3D.photos st) in
      exists st' p,
        Scene3D.processGestures hypot landmarks rnd st = Scene3D.Done st'
        /\ Scene3D.modeRef st' = FOCUS
        /\ nth_error (Scene3D.photos st)
             (Z.to_nat (Scene3D.randomIndex rnd n)) = Some p
        /\ In p (Scene3D.particlesRef st)
        /\ Scene3D.isPhoto p = true
        /\ Scene3D.focusTargetRef st'
           = Some (Object3D.handle (Particle.mesh p))
        /\ forall i : Z,
             Scene3D.randomIndex rnd n = i <->
             inject_Z i / inject_Z (Z.of_nat n) <= rnd
             /\ rnd < inject_Z (i + 1) / inject_Z (Z.of_nat n)).
Proof.
  intros Hd H1 H2. apply Qle_not_lt in H1.
  destruct (processGestures_detects landmarks rnd st _ _ Hd) as [h ->].
  rewrite (stateMachine_pinch _ _ _ _ H1 H2).
  change (Scene3D.photos (Scene3D.set_hand st h)) with (Scene3D.photos st).
  change (Scene3D.modeRef (Scene3D.set_hand st h)) with (Scene3D.modeRef st).
  split; [|split].
  - intros E. rewrite E. cbn. eexists. split; [reflexivity|].
    split; [exact E | reflexivity].
  - intros Hm Hp. rewrite Hp. cbn.
    destruct (Scene3D.modeRef st) eqn:E; try congruence; cbn;
      eexists; (split; [reflexivity|]); split; reflexivity.
  - intros Hm Hp R0 R1 n.
    assert (Hn : (0 < n)%nat).
    { unfold n. destruct (Scene3D.photos st); [congruence | cbn; lia]. }
    pose proof (randomIndex_range rnd n R0 R1 Hn) as Hr.
    fold n.
    assert (Hlt : (0 <? n)%nat = true) by (apply Nat.ltb_lt; exact Hn).
    rewrite Hlt.
    destruct (index_Some (Scene3D.photos st) (Scene3D.randomIndex rnd n) Hr)
      as (p & Hi & Hin).
    rewrite Hi.
    assert (Hnth : nth_error (Scene3D.photos st)
                     (Z.to_nat (Scene3D.randomIndex rnd n)) = Some p).
    { unfold Scene3D.index in Hi.
      destruct (Z.ltb_spec (Scene3D.randomIndex rnd n) 0); [lia | exact Hi]. }
    apply filter_In in Hin. destruct Hin as [Hin Hph].
    assert (Hneg : negb (AppMode_eqb (Scene3D.modeRef st) FOCUS) = true).
    { destruct (Scene3D.modeRef st); try reflexivity; congruence. }
    rewrite Hneg.
    exists (Scene3D.set_focus (Scene3D.set_mode (Scene3D.set_hand st h) FOCUS)
              (Some (Object3D.handle (Particle.mesh p)))), p.
    split; [reflexivity|]. split; [reflexivity|]. split; [exact Hnth|].
    split; [exact Hin|]. split; [exact Hph|]. split; [reflexivity|].
    intros i. apply randomIndex_uniform. exact Hn.
Qed.

End Classifier.

(** ** The mode machine as a whole *)

Section ModeMachine.

Local Open Scope Q_scope.

Variable hypot : Q -> Q -> Q.

Ltac case_state st :=
  destruct st as [m ps mg pg f mo h par nx]; cbn in *.

Ltac close_inv Hinv :=
  split;
  [ let Hf := fresh "Hf" in
    intros Hf; try (specialize (Hinv Hf)); congruence
  | reflexivity ].

Lemma stateMachine_keeps pinchDist avgDistToWrist rnd st :
  (Scene3D.focusTargetRef st <> None -> Scene3D.modeRef st = FOCUS) ->
  let st' := Scene3D.final
               (Scene3D.stateMachine pinchDist avgDistToWrist rnd st) in
  (Scene3D.focusTargetRef st' <> None -> Scene3D.modeRef st' = FOCUS)
  /\ Scene3D.particlesRef st' = Scene3D.particlesRef st.
Proof.
  intros Hinv. unfold Scene3D.stateMachine.
  destruct (Scene3D.Qltb avgDistToWrist Scene3D.FIST_THRESHOLD).
  - case_state st. destruct m; cbn; close_inv Hinv.
  - destruct (Scene3D.Qltb pinchDist Scene3D.PINCH_THRESHOLD).
    + case_state st.
      destruct m; cbn; try (close_inv Hinv);
        repeat match goal with
               | |- context [match ?c with _ => _ end] => destruct c; cbn
               end;
        close_inv Hinv.
    + destruct (Scene3D.Qltb Scene3D.OPEN_THRESHOLD avgDistToWrist).
      * case_state st. destruct m; cbn; close_inv Hinv.
      * cbn. split; [exact Hinv | reflexivity].
Qed.

Lemma processGestures_keeps landmarks rnd st :
  (Scene3D.focusTargetRef st <> None -> Scene3D.modeRef st = FOCUS) ->
  let st' := Scene3D.final (Scene3D.processGestures hypot landmarks rnd st) in
  (Scene3D.focusTargetRef st' <> None -> Scene3D.modeRef st' = FOCUS)
  /\ Scene3D.particlesRef st' = Scene3D.particlesRef st.
Proof.
  intros Hinv. unfold Scene3D.processGestures.
  destruct landmarks as [[|lm rest]|];
    [cbn; split; [exact Hinv | reflexivity] | |
     cbn; split; [exact Hinv | reflexivity]].
  destruct (nth_error lm 9) as [l9|];
    [|cbn; split; [exact Hinv | reflexivity]].
  destruct (Scene3D.metrics hypot lm) as [[pd av]|];
    [|cbn; split; [exact Hinv | reflexivity]].
  apply (stateMachine_keeps pd av rnd
           (Scene3D.set_hand (Scene3D.set_hand st _) _)).
  exact Hinv.
Qed.

Lemma onClick_keeps fuel intersectObjects st st' :
  Scene3D.onClick fuel intersectObjects st = Some st' ->
  (Scene3D.focusTargetRef st <> None -> Scene3D.modeRef st = FOCUS) ->
  (Scene3D.focusTargetRef st' <> None -> Scene3D.modeRef st' = FOCUS)
  /\ Scene3D.particlesRef st' = Scene3D.particlesRef st.
Proof.
  unfold Scene3D.onClick, Scene3D.cycleModes. intros H Hinv.
  destruct (intersectObjects (Scene3D.photoMeshes st)) as [|first rest].
  - injection H as <-. case_state st.
    destruct m; cbn; close_inv Hinv.
  - destruct (Scene3D.climb fuel st (Some first)) as [[tg|]|]; try discriminate;
      injection H as <-; case_state st.
    + close_inv Hinv.
    + destruct m; cbn; close_inv Hinv.
Qed.

Lemma step_keeps st st' :
  Scene3D.step hypot st st' ->
  (Scene3D.focusTargetRef st <> None -> Scene3D.modeRef st = FOCUS) ->
  (Scene3D.focusTargetRef st' <> None -> Scene3D.modeRef st' = FOCUS)
  /\ Scene3D.particlesRef st' = Scene3D.particlesRef st.
Proof.
  intros [landmarks rnd s | fuel ray s s' H] Hinv.
  - apply processGestures_keeps. exact Hinv.
  - eapply onClick_keeps; eassumption.
Qed.

Lemma reachable_keeps st0 st :
  Scene3D.initial st0 ->
  Scene3D.reachable hypot st0 st ->
  (Scene3D.focusTargetRef st <> None -> Scene3D.modeRef st = FOCUS)
  /\ Scene3D.particlesRef st = Scene3D.particlesRef st0.
Proof.
  intros [Hm Hf] Hr. induction Hr as [|s s' Hr [IH1 IH2] Hs].
  - split; [intro; congruence | reflexivity].
  - destruct (step_keeps s s' Hs IH1) as [K1 K2].
    split; [exact K1 | congruence].
Qed.

Lemma same_object_true a b :
  same_object a b = true <-> b = Some a.
Proof.
  unfold same_object. destruct b as [h|].
  - rewrite Nat.eqb_eq. split; intro H; congruence.
  - split; intro H; discriminate.
Qed.

Lemma handle_unique (ps : list Particle.t) (p q : Particle.t) :
  NoDup (map (fun e => Object3D.handle (Particle.mesh e)) ps) ->
  In p ps -> In q ps ->
  Object3D.handle (Particle.mesh p) = Object3D.handle (Particle.mesh q) ->
  p = q.
Proof.
  induction ps as [|e ps IH]; cbn; intros Hnd Hp Hq E; [contradiction|].
  inversion Hnd as [|? ? Hnotin Hnd']; subst.
  destruct Hp as [->|Hp], Hq as [->|Hq].
  - reflexivity.
  - exfalso. apply Hnotin. rewrite E.
    apply (in_map (fun e => Object3D.handle (Particle.mesh e))). exact Hq.
  - exfalso. apply Hnotin. rewrite <- E.
    apply (in_map (fun e => Object3D.handle (Particle.mesh e))). exact Hp.
  - apply IH; assumption.
Qed.

(** C4.  In every state reached from an initial state (mode TREE, focus
    target null) by detection frames and clicks, the focus target is
    non-null only in FOCUS mode; and, the entities having been created with
    renderables of their own, at most one entity's renderable is the focus
    target. *)
Theorem focus_target_only_in_focus_mode st0 st :
  Scene3D.initial st0 ->
  NoDup (map (fun e => Object3D.handle (Particle.mesh e))
             (Scene3D.particlesRef st0)) ->
  Scene3D.reachable hypot st0 st ->
  (Scene3D.focusTargetRef st <> None -> Scene3D.modeRef st = FOCUS)
  /\ (forall p q,
        In p (Scene3D.particlesRef st) -> In q (Scene3D.particlesRef st) ->
        same_object (Object3D.handle (Particle.mesh p))
                    (Scene3D.focusTargetRef st) = true ->
        same_object (Object3D.handle (Particle.mesh q))
                    (Scene3D.focusTargetRef st) = true ->
        p = q).
Proof.
  intros Hi Hnd Hr.
  destruct (reachable_keeps st0 st Hi Hr) as [K1 K2].
  split; [exact K1|].
  intros p q Hp Hq Sp Sq. rewrite K2 in Hp, Hq.
  apply same_object_true in Sp. apply same_object_true in Sq.
  apply (handle_unique _ p q Hnd Hp Hq). congruence.
Qed.

(** C2.  In every state the program can be in (reached from the initial
    state by detection frames and clicks), whatever its mode and focus target
    are, a detection with openness below FIST_THRESHOLD ends with the mode
    TREE and the focus target null; the pinch distance plays no part, so the
    branch takes priority over the pinch and open-hand conditions. *)
Theorem fist_forces_tree st0 st landmarks rnd pinchDist avgDistToWrist :
  Scene3D.initial st0 ->
  Scene3D.reachable hypot st0 st ->
  Scene3D.detects hypot landmarks pinchDist avgDistToWrist ->
  avgDistToWrist < Scene3D.FIST_THRESHOLD ->
  exists st',
    Scene3D.processGestures hypot landmarks rnd st = Scene3D.Done st'
    /\ Scene3D.modeRef st' = TREE
    /\ Scene3D.focusTargetRef st' = None.
Proof.
  intros Hi Hr Hd H1.
  destruct (reachable_keeps st0 st Hi Hr) as [Hinv _].
  destruct (fist_resets_to_tree hypot landmarks rnd st _ _ Hd H1)
    as (st' & E & M & _ & _ & F).
  exists st'. split; [exact E|]. split; [exact M|].
  apply F. intros Ht.
  destruct (Scene3D.focusTargetRef st) as [g|] eqn:Ef; [|reflexivity].
  assert (Hm : Scene3D.modeRef st = FOCUS) by (apply Hinv; discriminate).
  congruence.
Qed.

End ModeMachine.

(** ** The click handler *)

Section Click.

Lemma ref_eqb_true a b : Scene3D.ref_eqb a b = true <-> a = b.
Proof.
  destruct a as [u|], b as [v|]; cbn; try rewrite Nat.eqb_eq;
    split; intro H; congruence.
Qed.

(** In an object graph without cycles ([depth] decreases toward the root),
    the loop of [onClick], started below a child [g] of the photo group,
    stops at [g]. *)
Lemma climb_reaches_group (depth : Obj -> nat) st g :
  (forall o o', Scene3D.parent st o = Some o' -> (depth o' < depth o)%nat) ->
  Scene3D.photoGroupRef st <> None ->
  Scene3D.parent st g = Scene3D.photoGroupRef st ->
  forall o, Scene3D.below st g o ->
  forall fuel, (depth o - depth g <= fuel)%nat ->
  (depth g <= depth o)%nat
  /\ Scene3D.climb fuel st (Some o) = Some (Some g).
Proof.
  intros Hacyc Hpg Hg o Hb.
  induction Hb as [|o o' Hpar Hb IH]; intros fuel Hfuel.
  - split; [lia|].
    destruct fuel; cbn;
      (destruct (Scene3D.ref_eqb (Scene3D.parent st g) (Scene3D.photoGroupRef st))
         eqn:E; [reflexivity|]);
      rewrite Hg in E;
      assert (E' : Scene3D.ref_eqb (Scene3D.photoGroupRef st)
                     (Scene3D.photoGroupRef st) = true)
        by (apply ref_eqb_true; reflexivity);
      congruence.
  - pose proof (Hacyc o o' Hpar) as Hd.
    assert (Hle : (depth g <= depth o')%nat).
    { destruct (IH (depth o' - depth g)%nat) as [L _]; [lia | exact L]. }
    split; [lia|].
    assert (Hne : Scene3D.ref_eqb (Scene3D.parent st o)
                    (Scene3D.photoGroupRef st) = false).
    { destruct (Scene3D.ref_eqb (Scene3D.parent st o) (Scene3D.photoGroupRef st))
        eqn:E; [|reflexivity].
      apply ref_eqb_true in E. exfalso.
      rewrite Hpar, <- Hg in E. symmetry in E.
      pose proof (Hacyc g o' E). lia. }
    destruct fuel as [|fuel]; [lia|].
    cbn. rewrite Hne, Hpar.
    apply IH. lia.
Qed.

(** C5.  A click whose ray hits nothing cycles the mode: FOCUS to SCATTER
    with the focus target cleared, TREE to SCATTER, SCATTER to TREE; so it
    never takes TREE to FOCUS.  A click whose nearest hit lies in a photo
    entity's renderable group [g] (a child of the photo group, in an object
    graph without cycles) sets the mode to FOCUS and the focus target to
    [g], whatever the prior mode and focus target were. *)
Theorem click_focuses_or_cycles (depth : Obj -> nat) fuel intersectObjects st :
  (forall o o', Scene3D.parent st o = Some o' -> (depth o' < depth o)%nat) ->
  Scene3D.photoGroupRef st <> None ->
  (intersectObjects (Scene3D.photoMeshes st) = [] ->
   exists st',
     Scene3D.onClick fuel intersectObjects st = Some st'
     /\ Scene3D.modeRef st'
        = match Scene3D.modeRef st with
          | FOCUS => SCATTER | TREE => SCATTER | SCATTER => TREE
          end
     /\ Scene3D.focusTargetRef st'
        = match Scene3D.modeRef st with
          | FOCUS => None | _ => Scene3D.focusTargetRef st
          end
     /\ (Scene3D.modeRef st = TREE -> Scene3D.modeRef st' <> FOCUS))
  /\ (forall first rest g,
        intersectObjects (Scene3D.photoMeshes st) = first :: rest ->
        In g (Scene3D.photoMeshes st) ->
        Scene3D.parent st g = Scene3D.photoGroupRef st ->
        Scene3D.below st g first ->
        (depth first <= fuel)%nat ->
        exists st',
          Scene3D.onClick fuel intersectObjects st = Some st'
          /\ Scene3D.modeRef st' = FOCUS
          /\ Scene3D.focusTargetRef st' = Some g).
Proof.
  intros Hacyc Hpg. split.
  - intros Hmiss. unfold Scene3D.onClick. rewrite Hmiss.
    unfold Scene3D.cycleModes. eexists. split; [reflexivity|].
    destruct st as [m ps mg pg f mo h par nx]; cbn.
    destruct m; cbn; repeat split; intros; congruence.
  - intros first rest g Hhit Hin Hg Hb Hfuel.
    unfold Scene3D.onClick. rewrite Hhit.
    destruct (climb_reaches_group depth st g Hacyc Hpg Hg first Hb fuel)
      as [_ Hc]; [lia|].
    rewrite Hc. eexists. split; [reflexivity|]. split; reflexivity.
Qed.

End Click.

(** ** Particle layouts *)

Section Layout.

Lemma Math_pow_unit (x y : R) :
  0 <= x <= 1 -> 0 < y -> 0 <= Math_pow x y <= 1.
Proof.
  intros [H0 H1] Hy. unfold Math_pow.
  destruct (Req_dec_T x 0) as [E|E]; [lra|].
  assert (Hx : 0 < x) by lra.
  unfold Rpower. split.
  - left. apply exp_pos.
  - assert (Hln : ln x <= 0).
    { destruct (Req_dec_T x 1) as [->|N].
      - rewrite ln_1. lra.
      - left. rewrite <- ln_1. apply ln_increasing; lra. }
    assert (Hm : y * ln x <= 0) by nra.
    rewrite <- exp_0.
    destruct (Req_dec_T (y * ln x) 0) as [->|N]; [lra|].
    left. apply exp_increasing. lra.
Qed.

Lemma sin_cos_square (a : R) : cos a * cos a + sin a * sin a = 1.
Proof.
  pose proof (sin2_cos2 a) as H. unfold Rsqr in H. lra.
Qed.

(** A point at angle [a] and distance [r >= 0] from the vertical axis. *)
Lemma horizontalRadius_polar (a r y : R) :
  0 <= r ->
  Particle.horizontalRadius (Vector3.mk (cos a * r) y (sin a * r)) = r.
Proof.
  intros Hr. unfold Particle.horizontalRadius. cbn.
  replace (cos a * r * (cos a * r) + sin a * r * (sin a * r))
    with ((cos a * cos a + sin a * sin a) * (r * r)) by ring.
  rewrite sin_cos_square, Rmult_1_l. apply sqrt_square. exact Hr.
Qed.

(** A point in spherical coordinates lies at distance [r >= 0] from the
    origin. *)
Lemma length_spherical (r ph th : R) :
  0 <= r ->
  Vector3.length
    (Vector3.mk (r * sin ph * cos th) (r * sin ph * sin th) (r * cos ph)) = r.
Proof.
  intros Hr. unfold Vector3.length. cbn.
  replace (r * sin ph * cos th * (r * sin ph * cos th)
           + r * sin ph * sin th * (r * sin ph * sin th)
           + r * cos ph * (r * cos ph))
    with (r * r * (sin ph * sin ph * (cos th * cos th + sin th * sin th)
                   + cos ph * cos ph)) by ring.
  rewrite sin_cos_square, Rmult_1_r.
  replace (sin ph * sin ph + cos ph * cos ph)
    with (cos ph * cos ph + sin ph * sin ph) by ring.
  rewrite sin_cos_square, Rmult_1_r. apply sqrt_square. exact Hr.
Qed.

(** C6.  For every entity and every draw [t] in [0, 1] (and radial jitter
    draw in [0, 1], so that the jitter factor is in [0.8, 1.2]), the biased
    sample [t ^ 0.8] is in [0, 1] and the tree-layout position computed by
    [calculatePositions] has its height coordinate in [-H/2, H/2] and its
    horizontal radius at most 1.2 * R, with H = 24 and R = 8, whatever the
    other draws are. *)
Theorem tree_layout_bounds (d : Particle.Draws) (this : Particle.t) :
  0 <= Particle.rnd_t d <= 1 ->
  0 <= Particle.rnd_jitter d <= 1 ->
  let p := Particle.posTree (Particle.calculatePositions d this) in
  let H := treeHeight CONFIG_particles in
  let R0 := treeRadius CONFIG_particles in
  0 <= Math_pow (Particle.rnd_t d) 0.8 <= 1
  /\ - (H / 2) <= Vector3.y p <= H / 2
  /\ Particle.horizontalRadius p <= 1.2 * R0
  /\ H = 24 /\ R0 = 8.
Proof.
  intros Ht Hj.
  assert (Hb : 0 <= Math_pow (Particle.rnd_t d) 0.8 <= 1)
    by (apply Math_pow_unit; lra).
  cbn zeta. split; [exact Hb|].
  unfold Particle.calculatePositions. cbn.
  set (t1 := Math_pow (Particle.rnd_t d) 0.8) in *.
  split; [lra|]. split; [|split; reflexivity].
  rewrite horizontalRadius_polar.
  - destruct (Rlt_dec (8 * (1.0 - t1)) 0.5); nra.
  - destruct (Rlt_dec (8 * (1.0 - t1)) 0.5); nra.
Qed.

(** C7.  For every entity and every draw of the random inputs in [0, 1),
    the scatter-layout position is the point with spherical coordinates
    (r, phi, theta), where the shell radius r is 15 + 25 u for dust and
    10 + 15 u otherwise, theta = 2 pi u' and phi = acos (2 u'' - 1): its
    Euclidean norm equals r, which is in [10, 25] for a non-dust entity and
    in [15, 40] for a dust entity; theta is in [0, 2 pi) and falls below a
    bound [a] exactly for the draws below [a / (2 pi)], a share of the draws
    proportional to [a]; phi is in [0, pi] with cos phi = 2 u'' - 1. *)
Theorem scatter_layout_on_shell (d : Particle.Draws) (this : Particle.t) :
  0 <= Particle.rnd_shell d < 1 ->
  0 <= Particle.rnd_theta d < 1 ->
  0 <= Particle.rnd_phi d < 1 ->
  let p := Particle.posScatter (Particle.calculatePositions d this) in
  let r := if Particle.isDust this
           then 15 + 25 * Particle.rnd_shell d
           else 10 + 15 * Particle.rnd_shell d in
  let th := 2 * PI * Particle.rnd_theta d in
  let ph := acos (2 * Particle.rnd_phi d - 1) in
  p = Vector3.mk (r * sin ph * cos th) (r * sin ph * sin th) (r * cos ph)
  /\ Vector3.length p = r
  /\ (Particle.isDust this = false -> 10 <= r <= 25)
  /\ (Particle.isDust this = true -> 15 <= r <= 40)
  /\ 0 <= th < 2 * PI
  /\ (forall a, th < a <-> Particle.rnd_theta d < a / (2 * PI))
  /\ -1 <= 2 * Particle.rnd_phi d - 1 < 1
  /\ 0 <= ph <= PI
  /\ cos ph = 2 * Particle.rnd_phi d - 1.
Proof.
  intros Hs Ht Hp. cbn zeta.
  pose proof PI_RGT_0 as Hpi.
  set (r := if Particle.isDust this
            then 15 + 25 * Particle.rnd_shell d
            else 10 + 15 * Particle.rnd_shell d).
  assert (Hr : 0 <= r) by (unfold r; destruct (Particle.isDust this); lra).
  assert (Ep : Particle.posScatter (Particle.calculatePositions d this)
               = Vector3.mk
                   (r * sin (acos (2 * Particle.rnd_phi d - 1))
                    * cos (2 * PI * Particle.rnd_theta d))
                   (r * sin (acos (2 * Particle.rnd_phi d - 1))
                    * sin (2 * PI * Particle.rnd_theta d))
                   (r * cos (acos (2 * Particle.rnd_phi d - 1)))).
  { unfold Particle.calculatePositions. cbn [Particle.posScatter].
    unfold Particle.theta, Particle.phi, Particle.rScatter.
    replace (Particle.rnd_theta d * PI * 2)
      with (2 * PI * Particle.rnd_theta d) by ring.
    replace (if Particle.isDust this
             then 15 + Particle.rnd_shell d * 25
             else 10 + Particle.rnd_shell d * 15) with r
      by (unfold r; destruct (Particle.isDust this); ring).
    reflexivity. }
  split; [exact Ep|].
  split; [rewrite Ep; apply length_spherical; exact Hr|].
  split; [intros E; unfold r; rewrite E; lra|].
  split; [intros E; unfold r; rewrite E; lra|].
  split; [nra|].
  split.
  { intros a. split; intros H.
    - apply Rmult_lt_reg_l with (2 * PI); [lra|].
      replace (2 * PI * (a / (2 * PI))) with a by (field; lra). exact H.
    - apply Rmult_lt_compat_l with (r := 2 * PI) in H; [|lra].
      replace (2 * PI * (a / (2 * PI))) with a in H by (field; lra).
      exact H. }
  split; [lra|]. split; [apply acos_bound|].
  apply cos_acos. lra.
Qed.

End Layout.

(** ** Particle.update *)

Section Frame.

Variable lookAt : Object3D.t -> Vector3.t -> Euler.t.

Lemma lerp_zero (v w : Vector3.t) (k : R) : Vector3.lerp v w (k * 0) = v.
Proof.
  destruct v as [a b c]. unfold Vector3.lerp. cbn. f_equal; ring.
Qed.

Lemma update_position dt mode time focusTarget M this :
  Object3D.position (Particle.mesh
    (Particle.update lookAt dt mode time focusTarget M this))
  = Vector3.lerp (Object3D.position (Particle.mesh this))
      (Particle.target mode focusTarget M this)
      ((if Particle.isTarget mode focusTarget this then 3.5 else 1.8) * dt).
Proof.
  unfold Particle.update. cbn.
  repeat match goal with
         | |- context [if ?c then _ else _] => destruct c; cbn
         end; reflexivity.
Qed.

Lemma update_scale dt mode time focusTarget M this :
  Object3D.scale (Particle.mesh
    (Particle.update lookAt dt mode time focusTarget M this))
  = let s := Particle.targetScale mode time focusTarget this in
    Vector3.lerp (Object3D.scale (Particle.mesh this))
      (Vector3.mk s s s) (3.0 * dt).
Proof.
  unfold Particle.update. cbn.
  destruct (AppMode_eqb mode SCATTER
            || AppMode_eqb mode FOCUS
               && negb (Particle.isTarget mode focusTarget this));
    [reflexivity|].
  destruct (AppMode_eqb mode TREE); [reflexivity|].
  destruct (Particle.isTarget mode focusTarget this); reflexivity.
Qed.

(** C8.  With deltaTime = 0, any number of calls of [update] with the same
    mode, focus target and group world transform (and any elapsed times)
    leaves the position and the scale of the entity's renderable exactly as
    they were. *)
Theorem update_dt0_fixes_position_and_scale
    n mode (time : nat -> R) focusTarget M this :
  let this' := Particle.updates lookAt n 0 mode time focusTarget M this in
  Object3D.position (Particle.mesh this')
  = Object3D.position (Particle.mesh this)
  /\ Object3D.scale (Particle.mesh this')
     = Object3D.scale (Particle.mesh this).
Proof.
  cbn zeta. revert this.
  induction n as [|n IH]; intros this; cbn [Particle.updates].
  - split; reflexivity.
  - destruct (IH (Particle.update lookAt 0 mode (time n) focusTarget M this))
      as [P S].
    rewrite P, S, update_position, update_scale. cbn zeta.
    rewrite !lerp_zero. split; reflexivity.
Qed.

End Frame.

(** ** The two camera-relative points of [update] *)

Section CameraPoints.

Ltac open_invert m :=
  destruct m as [m0 m1 m2 m3 m4 m5 m6 m7 m8 m9 m10 m11 m12 m13 m14 m15];
  unfold Matrix4.invert, Matrix4.det, Matrix4.affine in *; cbn in *;
  match goal with
  | |- context [Req_dec_T ?d 0] => destruct (Req_dec_T d 0) as [?E|?E]
  end;
  [ exfalso; tauto | cbn ].

(** The inverse of an invertible affine matrix is affine in its last
    column. *)
Lemma invert_affine (m : Matrix4.t) :
  Matrix4.affine m -> Matrix4.det m <> 0 ->
  Matrix4.e11 (Matrix4.invert m) = 0 /\ Matrix4.e15 (Matrix4.invert m) = 1.
Proof.
  intros Ha Hd. open_invert m.
  destruct Ha as (-> & -> & -> & ->).
  split; field; intro X; apply E; (etransitivity; [|exact X]); ring.
Qed.

(** Entry (3, 3) of [m * invert m]. *)
Lemma invert_right_33 (m : Matrix4.t) :
  Matrix4.det m <> 0 ->
  Matrix4.e2 m * Matrix4.e8 (Matrix4.invert m)
  + Matrix4.e6 m * Matrix4.e9 (Matrix4.invert m)
  + Matrix4.e10 m * Matrix4.e10 (Matrix4.invert m)
  + Matrix4.e14 m * Matrix4.e11 (Matrix4.invert m) = 1.
Proof.
  intros Hd. open_invert m. field. exact E.
Qed.

Lemma camera_points_differ (m : Matrix4.t) (c c' : R) :
  Matrix4.affine m -> Matrix4.det m <> 0 -> c <> c' ->
  Vector3.applyMatrix4 (Vector3.mk 0 0 c) (Matrix4.invert m)
  <> Vector3.applyMatrix4 (Vector3.mk 0 0 c') (Matrix4.invert m).
Proof.
  intros Ha Hd Hc Heq.
  destruct (invert_affine m Ha Hd) as [I11 I15].
  pose proof (invert_right_33 m Hd) as I33.
  unfold Vector3.applyMatrix4 in Heq. cbn in Heq.
  rewrite I11, I15 in Heq. rewrite I11 in I33.
  set (i := Matrix4.invert m) in *.
  assert (W : forall t, 1 / (Matrix4.e3 i * 0 + Matrix4.e7 i * 0 + 0 * t + 1)
                        = 1).
  { intros t.
    replace (Matrix4.e3 i * 0 + Matrix4.e7 i * 0 + 0 * t + 1) with 1 by ring.
    field. }
  rewrite !W in Heq.
  injection Heq as E8 E9 E10.
  assert (Z8 : Matrix4.e8 i = 0) by nra.
  assert (Z9 : Matrix4.e9 i = 0) by nra.
  assert (Z10 : Matrix4.e10 i = 0) by nra.
  rewrite Z8, Z9, Z10 in I33. lra.
Qed.

End CameraPoints.

Section FocusTarget.

Variable lookAt : Object3D.t -> Vector3.t -> Euler.t.

Lemma isTarget_FOCUS mode focusTarget this :
  Particle.isTarget mode focusTarget this = true ->
  mode = FOCUS
  /\ same_object (Object3D.handle (Particle.mesh this)) focusTarget = true.
Proof.
  unfold Particle.isTarget. destruct mode; cbn; intros H;
    try discriminate. split; [reflexivity | exact H].
Qed.

Lemma set_position_same (o : Object3D.t) :
  Object3D.set_position o (Object3D.position o) = o.
Proof. destruct o. reflexivity. Qed.

(** What [update] does to the renderable that is the focus target. *)
Lemma update_focus_target dt mode time focusTarget M this :
  Particle.isTarget mode focusTarget this = true ->
  let this' := Particle.update lookAt dt mode time focusTarget M this in
  Object3D.position (Particle.mesh this')
  = Vector3.lerp (Object3D.position (Particle.mesh this))
      (Particle.cameraPosLocal M) (3.5 * dt)
  /\ Object3D.rotation (Particle.mesh this')
     = lookAt (Object3D.set_position (Particle.mesh this)
                 (Object3D.position (Particle.mesh this')))
              (Particle.cameraLocal M).
Proof.
  intros H. destruct (isTarget_FOCUS _ _ _ H) as [-> Hs]. cbn zeta.
  unfold Particle.update, Particle.target. rewrite H. cbn. rewrite Hs.
  split; reflexivity.
Qed.

(** C9, as the code has it.  For the focus target in FOCUS mode, [update]
    eases the position toward the point (0, 0, 38) taken through the inverse
    of the group's world transform, and turns the renderable toward the
    point (0, 0, 50) (the camera distance) taken through the same inverse:
    the two points are computed the same way from different points of the
    camera axis, and they are different for every invertible affine world
    transform. *)
Theorem focus_target_points dt mode time focusTarget M this :
  Particle.isTarget mode focusTarget this = true ->
  let this' := Particle.update lookAt dt mode time focusTarget M this in
  let target :=
    Vector3.applyMatrix4 (Vector3.mk 0 0 38) (Matrix4.invert M) in
  let facing :=
    Vector3.applyMatrix4 (Vector3.mk 0 0 50) (Matrix4.invert M) in
  Object3D.position (Particle.mesh this')
  = Vector3.lerp (Object3D.position (Particle.mesh this)) target (3.5 * dt)
  /\ Object3D.rotation (Particle.mesh this')
     = lookAt (Object3D.set_position (Particle.mesh this)
                 (Object3D.position (Particle.mesh this')))
              facing
  /\ (Matrix4.affine M -> Matrix4.det M <> 0 -> facing <> target).
Proof.
  intros H. cbn zeta.
  destruct (update_focus_target dt mode time focusTarget M this H) as [P Rt].
  split; [exact P|]. split; [exact Rt|].
  intros Ha Hd. apply camera_points_differ; [exact Ha | exact Hd | lra].
Qed.

(** C10.  For the focus target in FOCUS mode, the rotation after [update]
    is the look-at orientation toward the local-space camera point, whatever
    deltaTime is; with deltaTime = 0 the position and the scale stay as they
    were while the rotation becomes the look-at orientation, so it changes
    whenever the renderable was not already turned that way. *)
Theorem look_at_not_scaled_by_delta_time dt mode time focusTarget M this :
  Particle.isTarget mode focusTarget this = true ->
  let this' := Particle.update lookAt dt mode time focusTarget M this in
  let this0 := Particle.update lookAt 0 mode time focusTarget M this in
  Object3D.rotation (Particle.mesh this')
  = lookAt (Object3D.set_position (Particle.mesh this)
              (Object3D.position (Particle.mesh this')))
           (Particle.cameraLocal M)
  /\ Object3D.position (Particle.mesh this0)
     = Object3D.position (Particle.mesh this)
  /\ Object3D.scale (Particle.mesh this0)
     = Object3D.scale (Particle.mesh this)
  /\ Object3D.rotation (Particle.mesh this0)
     = lookAt (Particle.mesh this) (Particle.cameraLocal M)
  /\ (lookAt (Particle.mesh this) (Particle.cameraLocal M)
      <> Object3D.rotation (Particle.mesh this) ->
      Object3D.rotation (Particle.mesh this0)
      <> Object3D.rotation (Particle.mesh this)).
Proof.
  intros H. cbn zeta.
  destruct (update_focus_target dt mode time focusTarget M this H) as [_ Rt].
  destruct (update_focus_target 0 mode time focusTarget M this H) as [P0 R0].
  cbn zeta in P0, R0. rewrite lerp_zero in P0.
  rewrite P0, set_position_same in R0.
  split; [exact Rt|]. split; [exact P0|].
  split; [rewrite update_scale; cbn zeta; apply lerp_zero|].
  split; [exact R0|]. intros Hne. rewrite R0. exact Hne.
Qed.

End FocusTarget.

(** ** The theorems on sample data *)

Section Samples.

Local Open Scope Q_scope.

Ltac sample_detects :=
  unfold Scene3D.detects; do 3 eexists;
  split; [reflexivity | split; reflexivity].

Lemma open_hand_scatters_witness :
  exists st',
    Scene3D.processGestures hypot_axis (Some [sampleHand 0.5 1]) 0
      (sampleState FOCUS (Some 10%nat)) = Scene3D.Done st'
    /\ Scene3D.modeRef st' = SCATTER
    /\ Scene3D.focusTargetRef st' = None.
Proof.
  edestruct (open_hand_scatters hypot_axis (Some [sampleHand 0.5 1]) 0
               (sampleState FOCUS (Some 10%nat)))
    as (st' & E & M & F & _).
  - sample_detects.
  - intro H. vm_compute in H. discriminate.
  - intro H. vm_compute in H. discriminate.
  - reflexivity.
  - exists st'. split; [exact E|]. split; [exact M|]. apply F. reflexivity.
Defined.

Lemma fist_forces_tree_witness :
  exists st',
    Scene3D.processGestures hypot_axis (Some [sampleHand 0.5 0.6]) 0
      (Scene3D.final
         (Scene3D.processGestures hypot_axis (Some [sampleHand 0.85 0.9]) 0.5
            (sampleState TREE None)))
    = Scene3D.Done st'
    /\ Scene3D.modeRef st' = TREE
    /\ Scene3D.focusTargetRef st' = None.
Proof.
  eapply (fist_forces_tree hypot_axis (sampleState TREE None)).
  - split; reflexivity.
  - eapply Scene3D.reach_step; [apply Scene3D.reach_init|].
    apply Scene3D.step_gesture.
  - sample_detects.
  - reflexivity.
Defined.

Lemma pinch_enters_focus_witness :
  exists st',
    Scene3D.processGestures hypot_axis (Some [sampleHand 0.85 0.9]) 0.5
      (sampleState TREE None) = Scene3D.Done st'
    /\ Scene3D.modeRef st' = FOCUS
    /\ Scene3D.focusTargetRef st' = Some 20%nat.
Proof.
  edestruct (pinch_enters_focus hypot_axis (Some [sampleHand 0.85 0.9]) 0.5
               (sampleState TREE None))
    as (_ & _ & K).
  - sample_detects.
  - vm_compute. discriminate.
  - reflexivity.
  - destruct K as (st' & p & E & M & Hn & _ & _ & F & _).
    + discriminate.
    + discriminate.
    + vm_compute. discriminate.
    + reflexivity.
    + exists st'. split; [exact E|]. split; [exact M|].
      rewrite F. injection Hn as <-. reflexivity.
Defined.

Lemma sample_handles_distinct :
  NoDup (map (fun e => Object3D.handle (Particle.mesh e))
             (Scene3D.particlesRef (sampleState TREE None))).
Proof.
  cbn. repeat constructor; cbn; intuition discriminate.
Defined.

Lemma focus_target_only_in_focus_mode_witness :
  Scene3D.modeRef
    (Scene3D.final
       (Scene3D.processGestures hypot_axis (Some [sampleHand 0.85 0.9]) 0.5
          (sampleState TREE None)))
  = FOCUS.
Proof.
  apply (focus_target_only_in_focus_mode hypot_axis (sampleState TREE None)).
  - split; reflexivity.
  - exact sample_handles_distinct.
  - eapply Scene3D.reach_step; [apply Scene3D.reach_init|].
    apply Scene3D.step_gesture.
  - cbv. discriminate.
Defined.

Lemma sample_scene_acyclic st :
  Scene3D.parent st = sampleParent ->
  forall o o' : Obj,
    Scene3D.parent st o = Some o' -> (sampleDepth o' < sampleDepth o)%nat.
Proof.
  intros -> o o'.
  do 23 (destruct o as [|o]; cbn;
         [ try discriminate; intros [= <-]; cbn; lia | ]).
  discriminate.
Defined.

Lemma click_focuses_or_cycles_witness :
  (exists st',
     Scene3D.onClick 4 sampleHit (sampleState TREE None) = Some st'
     /\ Scene3D.modeRef st' = FOCUS
     /\ Scene3D.focusTargetRef st' = Some 10%nat)
  /\ (exists st',
        Scene3D.onClick 4 sampleMiss (sampleState FOCUS (Some 10%nat))
        = Some st'
        /\ Scene3D.modeRef st' = SCATTER
        /\ Scene3D.focusTargetRef st' = None).
Proof.
  split.
  - destruct (click_focuses_or_cycles sampleDepth 4 sampleHit
                (sampleState TREE None)) as [_ K].
    + apply sample_scene_acyclic. reflexivity.
    + discriminate.
    + apply (K 12%nat [11%nat] 10%nat).
      * reflexivity.
      * cbn. left. reflexivity.
      * reflexivity.
      * eapply Scene3D.below_child; [reflexivity | apply Scene3D.below_self].
      * cbn. lia.
  - destruct (click_focuses_or_cycles sampleDepth 4 sampleMiss
                (sampleState FOCUS (Some 10%nat))) as [K _].
    + apply sample_scene_acyclic. reflexivity.
    + discriminate.
    + destruct K as (st' & E & M & F & _); [reflexivity|].
      exists st'. split; [exact E|]. split; [exact M | exact F].
Defined.

End Samples.

Section RealSamples.

Lemma tree_layout_bounds_witness :
  Particle.horizontalRadius
    (Particle.posTree
       (Particle.calculatePositions sampleDraws (sampleParticle 3%nat "BOX" false)))
  <= 1.2 * 8.
Proof.
  destruct (tree_layout_bounds sampleDraws (sampleParticle 3%nat "BOX" false))
    as (_ & _ & K & _).
  - cbn. lra.
  - cbn. lra.
  - exact K.
Defined.

Lemma scatter_layout_on_shell_witness :
  Vector3.length
    (Particle.posScatter
       (Particle.calculatePositions sampleDraws (sampleParticle 4%nat "DUST" true)))
  = 15 + 25 * 0.5.
Proof.
  destruct (scatter_layout_on_shell sampleDraws (sampleParticle 4%nat "DUST" true))
    as (_ & K & _).
  - cbn. lra.
  - cbn. lra.
  - cbn. lra.
  - exact K.
Defined.

Lemma identity_affine : Matrix4.affine Matrix4.identity.
Proof. unfold Matrix4.affine. cbn. repeat split; reflexivity. Defined.

Lemma identity_det : Matrix4.det Matrix4.identity <> 0.
Proof. unfold Matrix4.det. cbn. lra. Defined.

(** C9 as stated fails under the identity world transform: the point the
    focus target is turned toward is not the point its position is eased
    toward. *)
Lemma look_at_point_is_not_position_target :
  Particle.isTarget FOCUS (Some 10%nat) tiltedPhoto = true
  /\ Particle.target FOCUS (Some 10%nat) Matrix4.identity tiltedPhoto
     = Particle.cameraPosLocal Matrix4.identity
  /\ Particle.cameraLocal Matrix4.identity
     <> Particle.cameraPosLocal Matrix4.identity.
Proof.
  split; [reflexivity|]. split; [reflexivity|].
  apply camera_points_differ;
    [exact identity_affine | exact identity_det | unfold CONFIG_camera_z; lra].
Defined.

Lemma focus_target_points_witness :
  Vector3.applyMatrix4 (Vector3.mk 0 0 50) (Matrix4.invert Matrix4.identity)
  <> Vector3.applyMatrix4 (Vector3.mk 0 0 38) (Matrix4.invert Matrix4.identity).
Proof.
  destruct (focus_target_points sampleLookAt 0 FOCUS 0 (Some 10%nat)
              Matrix4.identity tiltedPhoto) as (_ & _ & K).
  - reflexivity.
  - apply K; [exact identity_affine | exact identity_det].
Defined.

Lemma look_at_not_scaled_by_delta_time_witness :
  Object3D.rotation
    (Particle.mesh
       (Particle.update sampleLookAt 0 FOCUS 0 (Some 10%nat)
          Matrix4.identity tiltedPhoto))
  <> Object3D.rotation (Particle.mesh tiltedPhoto).
Proof.
  destruct (look_at_not_scaled_by_delta_time sampleLookAt 0 FOCUS 0
              (Some 10%nat) Matrix4.identity tiltedPhoto)
    as (_ & _ & _ & _ & K).
  - reflexivity.
  - apply K. cbn. intros [= H]. lra.
Defined.

End RealSamples.

(* ================================================================= *)
(** * Part III: further properties of the code *)
(* ================================================================= *)

(** ** The Particle constructor and the frames of one mode *)

Section ParticleMore.

Variable lookAt : Object3D.t -> Vector3.t -> Euler.t.

(** X1.  The constructor keeps the renderable, takes the base scale from its
    [scale.x], and draws each spin component in [-0.15, 0.15) for a photo
    and in [-1, 1) for every other type. *)
Theorem constructor_spin_bounds mesh0 type0 isDust0 rid sx sy sz d :
  0 <= sx < 1 -> 0 <= sy < 1 -> 0 <= sz < 1 ->
  let p := Particle.new mesh0 type0 isDust0 rid sx sy sz d in
  let b := if String.eqb type0 "PHOTO" then 0.15 else 1 in
  Particle.mesh p = mesh0
  /\ Particle.baseScale p = Vector3.x (Object3D.scale mesh0)
  /\ Particle.id p = rid
  /\ - b <= Vector3.x (Particle.spinSpeed p) < b
  /\ - b <= Vector3.y (Particle.spinSpeed p) < b
  /\ - b <= Vector3.z (Particle.spinSpeed p) < b.
Proof.
  intros Hx Hy Hz. cbn zeta.
  unfold Particle.new, Particle.calculatePositions. cbn.
  destruct (String.eqb type0 "PHOTO"); repeat split; try reflexivity; lra.
Qed.

Lemma update_keeps dt mode time focusTarget M this :
  let this' := Particle.update lookAt dt mode time focusTarget M this in
  Particle.target mode focusTarget M this'
  = Particle.target mode focusTarget M this
  /\ Particle.isTarget mode focusTarget this'
     = Particle.isTarget mode focusTarget this
  /\ Particle.spinSpeed this' = Particle.spinSpeed this
  /\ Object3D.handle (Particle.mesh this')
     = Object3D.handle (Particle.mesh this).
Proof.
  cbn zeta.
  assert (Hh : Object3D.handle (Particle.mesh
                 (Particle.update lookAt dt mode time focusTarget M this))
               = Object3D.handle (Particle.mesh this)).
  { unfold Particle.update. cbn.
    repeat match goal with
           | |- context [if ?c then _ else _] => destruct c; cbn
           end; reflexivity. }
  unfold Particle.target, Particle.isTarget. rewrite Hh.
  repeat split; reflexivity.
Qed.

(** X2.  Exponential smoothing: after [n] frames of length [dt] in one mode, each
    coordinate of the position is at [(1 - k dt) ^ n] times its initial
    offset from the target, with rate [k = 3.5] for the focus target and
    [1.8] otherwise. *)
Theorem position_after_n_frames n dt mode (time : nat -> R) focusTarget M this :
  let k := if Particle.isTarget mode focusTarget this then 3.5 else 1.8 in
  let tgt := Particle.target mode focusTarget M this in
  let p0 := Object3D.position (Particle.mesh this) in
  let pn :=
    Object3D.position
      (Particle.mesh
         (Particle.updates lookAt n dt mode time focusTarget M this)) in
  Vector3.x pn - Vector3.x tgt
  = (1 - k * dt) ^ n * (Vector3.x p0 - Vector3.x tgt)
  /\ Vector3.y pn - Vector3.y tgt
     = (1 - k * dt) ^ n * (Vector3.y p0 - Vector3.y tgt)
  /\ Vector3.z pn - Vector3.z tgt
     = (1 - k * dt) ^ n * (Vector3.z p0 - Vector3.z tgt).
Proof.
  cbn zeta. revert this.
  induction n as [|n IH]; intros this; cbn [Particle.updates pow].
  - repeat split; ring.
  - destruct (update_keeps dt mode (time n) focusTarget M this)
      as (Kt & Ki & _ & _).
    destruct (IH (Particle.update lookAt dt mode (time n) focusTarget M this))
      as (Ix & Iy & Iz).
    rewrite Kt, Ki in Ix, Iy, Iz.
    rewrite update_position in Ix, Iy, Iz.
    rewrite Ix, Iy, Iz. unfold Vector3.lerp. cbn.
    repeat split; ring.
Qed.

(** X3.  In FOCUS mode an entity that is not the focus target moves and spins
    exactly as in SCATTER mode; only the scale it is eased toward differs
    (half the base scale, for an entity that is not dust). *)
Theorem focus_non_target_like_scatter dt time focusTarget M this :
  Particle.isTarget FOCUS focusTarget this = false ->
  let f := Particle.update lookAt dt FOCUS time focusTarget M this in
  let s := Particle.update lookAt dt SCATTER time focusTarget M this in
  Object3D.position (Particle.mesh f) = Object3D.position (Particle.mesh s)
  /\ Object3D.rotation (Particle.mesh f) = Object3D.rotation (Particle.mesh s)
  /\ (Particle.isDust this = false ->
      Particle.targetScale FOCUS time focusTarget this
      = Particle.baseScale this * 0.5)
  /\ (Particle.isDust this = true ->
      Particle.targetScale FOCUS time focusTarget this
      = Particle.targetScale SCATTER time focusTarget this).
Proof.
  intros H. cbn zeta.
  assert (Hs : same_object (Object3D.handle (Particle.mesh this)) focusTarget
               = false) by exact H.
  split; [|split; [|split]].
  - rewrite !update_position. unfold Particle.target, Particle.isTarget.
    cbn. rewrite Hs. reflexivity.
  - unfold Particle.update. rewrite H. unfold Particle.isTarget. cbn.
    reflexivity.
  - intros Hd. unfold Particle.targetScale. rewrite Hd, H. reflexivity.
  - intros Hd. unfold Particle.targetScale. rewrite Hd. reflexivity.
Qed.

(** X4.  Dust is eased toward scale 0 in TREE mode and, in the other modes,
    toward a scale between 0.3 and 1.3 times its base scale, whether or not
    it is the focus target. *)
Theorem dust_scale_target mode time focusTarget this :
  Particle.isDust this = true ->
  0 <= Particle.baseScale this ->
  (mode = TREE -> Particle.targetScale mode time focusTarget this = 0)
  /\ (mode <> TREE ->
      0.3 * Particle.baseScale this
      <= Particle.targetScale mode time focusTarget this
      <= 1.3 * Particle.baseScale this).
Proof.
  intros Hd Hb. unfold Particle.targetScale. rewrite Hd. split.
  - intros ->. reflexivity.
  - intros Hm.
    assert (E : AppMode_eqb mode TREE = false)
      by (destruct mode; [congruence | reflexivity | reflexivity]).
    rewrite E.
    pose proof (SIN_bound (time * 3 + Particle.id this * 10)) as [S1 S2].
    nra.
Qed.

Lemma update_rotation_scatter dt time focusTarget M this :
  Object3D.rotation (Particle.mesh
    (Particle.update lookAt dt SCATTER time focusTarget M this))
  = let r := Object3D.rotation (Particle.mesh this) in
    let v := Particle.spinSpeed this in
    Euler.mk (Euler.x r + Vector3.x v * dt) (Euler.y r + Vector3.y v * dt)
             (Euler.z r + Vector3.z v * dt).
Proof. reflexivity. Qed.

Lemma update_rotation_tree dt time focusTarget M this :
  Object3D.rotation (Particle.mesh
    (Particle.update lookAt dt TREE time focusTarget M this))
  = let r := Object3D.rotation (Particle.mesh this) in
    Euler.mk (MathUtils.lerp (Euler.x r) 0 dt) (Euler.y r + 0.5 * dt)
             (MathUtils.lerp (Euler.z r) 0 dt).
Proof. reflexivity. Qed.

(** X5.  After [n] frames of length [dt]: in TREE mode the x and z rotations are
    [(1 - dt) ^ n] times what they were and the y rotation has grown by
    [n * 0.5 * dt]; in SCATTER mode every rotation has grown by [n * dt]
    times the entity's spin speed. *)
Theorem rotation_after_n_frames n dt (time : nat -> R) focusTarget M this :
  let r0 := Object3D.rotation (Particle.mesh this) in
  let v := Particle.spinSpeed this in
  let rT :=
    Object3D.rotation
      (Particle.mesh
         (Particle.updates lookAt n dt TREE time focusTarget M this)) in
  let rS :=
    Object3D.rotation
      (Particle.mesh
         (Particle.updates lookAt n dt SCATTER time focusTarget M this)) in
  (Euler.x rT = (1 - dt) ^ n * Euler.x r0
   /\ Euler.y rT = Euler.y r0 + INR n * (0.5 * dt)
   /\ Euler.z rT = (1 - dt) ^ n * Euler.z r0)
  /\ (Euler.x rS = Euler.x r0 + INR n * (Vector3.x v * dt)
      /\ Euler.y rS = Euler.y r0 + INR n * (Vector3.y v * dt)
      /\ Euler.z rS = Euler.z r0 + INR n * (Vector3.z v * dt)).
Proof.
  cbn zeta. revert this.
  induction n as [|n IH]; intros this.
  - cbn. repeat split; ring.
  - cbn [Particle.updates]. rewrite S_INR.
    destruct (IH (Particle.update lookAt dt TREE (time n) focusTarget M this))
      as [(Tx & Ty & Tz) _].
    destruct (IH (Particle.update lookAt dt SCATTER (time n) focusTarget M this))
      as [_ (Sx & Sy & Sz)].
    destruct (update_keeps dt SCATTER (time n) focusTarget M this)
      as (_ & _ & Kv & _).
    rewrite Kv in Sx, Sy, Sz.
    rewrite update_rotation_tree in Tx, Ty, Tz.
    rewrite update_rotation_scatter in Sx, Sy, Sz.
    rewrite Tx, Ty, Tz, Sx, Sy, Sz. unfold MathUtils.lerp. cbn.
    repeat split; ring.
Qed.

End ParticleMore.

(** ** The camera-relative points are anchored to the camera *)

Section CameraAnchor.

Lemma vector3_eq (a b c a' b' c' : R) :
  a = a' -> b = b' -> c = c' -> Vector3.mk a b c = Vector3.mk a' b' c'.
Proof. intros -> -> ->. reflexivity. Qed.

(** Taking a point through the inverse of an invertible affine matrix and
    then through the matrix gives the point back. *)
Lemma applyMatrix4_invert (m : Matrix4.t) (v : Vector3.t) :
  Matrix4.affine m -> Matrix4.det m <> 0 ->
  Vector3.applyMatrix4 (Vector3.applyMatrix4 v (Matrix4.invert m)) m = v.
Proof.
  intros Ha Hd.
  destruct m as [m0 m1 m2 m3 m4 m5 m6 m7 m8 m9 m10 m11 m12 m13 m14 m15].
  destruct v as [a b c].
  unfold Matrix4.affine in Ha. cbn in Ha.
  destruct Ha as (-> & -> & -> & ->).
  unfold Matrix4.invert, Matrix4.det in *. cbn in *.
  match goal with
  | |- context [Req_dec_T ?d 0] => destruct (Req_dec_T d 0) as [E|E]
  end; [exfalso; tauto|].
  unfold Vector3.applyMatrix4. cbn.
  assert (D : m0 * (m5 * m10 - m9 * m6) + m1 * (m8 * m6 - m4 * m10)
              + m2 * (m4 * m9 - m8 * m5) <> 0).
  { intro X. apply E. etransitivity; [|exact X]. ring. }
  apply vector3_eq; field; repeat split; try exact D; try lra;
    try (intro X; apply D; etransitivity; [|exact X]; ring).
Qed.

(** X6.  For every invertible affine world transform of the group, the point the
    focus target is eased toward is seen at (0, 0, 38) in world space, and
    the point it is turned toward at (0, 0, 50): both stay where they are
    relative to the camera however the group is rotated. *)
Theorem camera_points_anchored (M : Matrix4.t) :
  Matrix4.affine M -> Matrix4.det M <> 0 ->
  Vector3.applyMatrix4 (Particle.cameraPosLocal M) M = Vector3.mk 0 0 38
  /\ Vector3.applyMatrix4 (Particle.cameraLocal M) M = Vector3.mk 0 0 50.
Proof.
  intros Ha Hd. unfold Particle.cameraPosLocal, Particle.cameraLocal.
  split; apply applyMatrix4_invert; assumption.
Qed.

End CameraAnchor.

(** ** More on the gesture classifier *)

Section ClassifierMore.

Local Open Scope Q_scope.

Variable hypot : Q -> Q -> Q.

Lemma stateMachine_frame pinchDist avgDistToWrist rnd st :
  let st' := Scene3D.final
               (Scene3D.stateMachine pinchDist avgDistToWrist rnd st) in
  Scene3D.handRef st' = Scene3D.handRef st
  /\ Scene3D.mouseRef st' = Scene3D.mouseRef st
  /\ Scene3D.particlesRef st' = Scene3D.particlesRef st
  /\ Scene3D.parent st' = Scene3D.parent st
  /\ Scene3D.photoGroupRef st' = Scene3D.photoGroupRef st
  /\ Scene3D.mainGroupRef st' = Scene3D.mainGroupRef st
  /\ Scene3D.nextObj st' = Scene3D.nextObj st.
Proof.
  unfold Scene3D.stateMachine.
  destruct st as [m ps mg pg f mo h par nx]; cbn.
  repeat match goal with
         | |- context [match ?c with _ => _ end] => destruct c; cbn
         end; repeat split; reflexivity.
Qed.

(** X7.  The hand signal.  Without a hand in the frame only [detected] is reset
    and the last coordinates are kept.  With a hand, the signal becomes
    [(1 - 2 x, 1 - 2 y)] for landmark 9 at [(x, y)], both axes reversed, so
    it lies in [-1, 1] for a landmark inside the image; this is so whatever
    the state machine then does. *)
Theorem hand_signal landmarks rnd st :
  ((landmarks = None \/ landmarks = Some []) ->
   exists st',
     Scene3D.processGestures hypot landmarks rnd st = Scene3D.Done st'
     /\ Scene3D.handRef st'
        = Hand.mk false (Hand.x (Scene3D.handRef st))
                  (Hand.y (Scene3D.handRef st))
     /\ Scene3D.modeRef st' = Scene3D.modeRef st
     /\ Scene3D.focusTargetRef st' = Scene3D.focusTargetRef st)
  /\ (forall lm rest l9 pinchDist avgDistToWrist,
        landmarks = Some (lm :: rest) ->
        nth_error lm 9 = Some l9 ->
        Scene3D.metrics hypot lm = Some (pinchDist, avgDistToWrist) ->
        let h := Scene3D.handRef
                   (Scene3D.final
                      (Scene3D.processGestures hypot landmarks rnd st)) in
        Hand.detected h = true
        /\ Hand.x h == 1 - 2 * Landmark.x l9
        /\ Hand.y h == 1 - 2 * Landmark.y l9
        /\ (0 <= Landmark.x l9 <= 1 -> -1 <= Hand.x h <= 1)
        /\ (0 <= Landmark.y l9 <= 1 -> -1 <= Hand.y h <= 1)).
Proof.
  split.
  - intros [-> | ->]; cbn; eexists; repeat split; reflexivity.
  - intros lm rest l9 pd av -> H9 Hm. cbn zeta.
    unfold Scene3D.processGestures. rewrite H9, Hm.
    match goal with
    | |- context [Scene3D.stateMachine ?a ?b ?c ?s] =>
        destruct (stateMachine_frame a b c s) as (-> & _)
    end.
    cbn. split; [reflexivity|].
    assert (Ex : (1 - Landmark.x l9 - 0.5) * 2 == 1 - 2 * Landmark.x l9)
      by ring.
    assert (Ey : (1 - Landmark.y l9 - 0.5) * 2 == 1 - 2 * Landmark.y l9)
      by ring.
    split; [exact Ex|]. split; [exact Ey|].
    split; intros [L U].
    + rewrite Ex. split.
      * apply Qle_minus_iff. ring_simplify.
        apply Qle_minus_iff in U. ring_simplify in U.
        setoid_replace ((-2) * Landmark.x l9 + 2)
          with (2 * (-1 * Landmark.x l9 + 1)) by ring.
        apply Qmult_le_0_compat; [discriminate | exact U].
      * apply Qle_minus_iff. ring_simplify.
        apply Qmult_le_0_compat; [discriminate | exact L].
    + rewrite Ey. split.
      * apply Qle_minus_iff. ring_simplify.
        apply Qle_minus_iff in U. ring_simplify in U.
        setoid_replace ((-2) * Landmark.y l9 + 2)
          with (2 * (-1 * Landmark.y l9 + 1)) by ring.
        apply Qmult_le_0_compat; [discriminate | exact U].
      * apply Qle_minus_iff. ring_simplify.
        apply Qmult_le_0_compat; [discriminate | exact L].
Qed.

End ClassifierMore.

Section ClassifierEdges.

Local Open Scope Q_scope.

Variable hypot : Q -> Q -> Q.

(** X8.  The steady hold: on a detection whose openness is between the fist and
    the open thresholds (bounds included) and whose pinch distance is not
    below the pinch threshold, the mode and the focus target stay as they
    are. *)
Theorem hold_keeps_mode landmarks rnd st pinchDist avgDistToWrist :
  Scene3D.detects hypot landmarks pinchDist avgDistToWrist ->
  Scene3D.FIST_THRESHOLD <= avgDistToWrist ->
  avgDistToWrist <= Scene3D.OPEN_THRESHOLD ->
  Scene3D.PINCH_THRESHOLD <= pinchDist ->
  exists st',
    Scene3D.processGestures hypot landmarks rnd st = Scene3D.Done st'
    /\ Scene3D.modeRef st' = Scene3D.modeRef st
    /\ Scene3D.focusTargetRef st' = Scene3D.focusTargetRef st.
Proof.
  intros Hd H1 H2 H3.
  apply Qle_not_lt in H1. apply Qle_not_lt in H2. apply Qle_not_lt in H3.
  destruct (processGestures_detects hypot landmarks rnd st _ _ Hd) as [h ->].
  rewrite (stateMachine_hold _ _ _ _ H1 H3 H2).
  eexists. split; [reflexivity|]. split; reflexivity.
Qed.

Lemma nth_error_short {A : Type} (l : list A) (i n : nat) :
  (List.length l <= n)%nat -> (n <= i)%nat -> nth_error l i = None.
Proof. intros H1 H2. apply nth_error_None. lia. Qed.

Lemma nth_error_long {A : Type} (l : list A) (i : nat) :
  (i < List.length l)%nat -> exists a, nth_error l i = Some a.
Proof.
  intros H. destruct (nth_error l i) as [a|] eqn:E.
  - exists a. reflexivity.
  - apply nth_error_None in E. lia.
Qed.

(** X9.  A hand with fewer than 21 landmarks makes [processGestures] throw: the
    hand is already marked as detected, the mode and the focus target are
    not touched.  A hand with at least 21 landmarks never does, for a draw
    in [0, 1). *)
Theorem landmarks_read lm rest rnd st :
  ((List.length lm < 21)%nat ->
   exists st',
     Scene3D.processGestures hypot (Some (lm :: rest)) rnd st
     = Scene3D.Threw st'
     /\ Hand.detected (Scene3D.handRef st') = true
     /\ Scene3D.modeRef st' = Scene3D.modeRef st
     /\ Scene3D.focusTargetRef st' = Scene3D.focusTargetRef st)
  /\ ((21 <= List.length lm)%nat -> 0 <= rnd -> rnd < 1 ->
      exists st',
        Scene3D.processGestures hypot (Some (lm :: rest)) rnd st
        = Scene3D.Done st').
Proof.
  split.
  - intros Hlen. unfold Scene3D.processGestures.
    destruct (nth_error lm 9) as [l9|] eqn:E9.
    + assert (M : Scene3D.metrics hypot lm = None).
      { unfold Scene3D.metrics.
        rewrite (nth_error_short lm 20 20) by lia.
        repeat match goal with
               | |- context [match ?c with _ => _ end] => destruct c
               end; reflexivity. }
      rewrite M. eexists. split; [reflexivity|]. repeat split; reflexivity.
    + eexists. split; [reflexivity|]. repeat split; reflexivity.
  - intros Hlen R0 R1. unfold Scene3D.processGestures.
    destruct (nth_error_long lm 9) as [l9 ->]; [lia|].
    unfold Scene3D.metrics.
    destruct (nth_error_long lm 0) as [a0 ->]; [lia|].
    destruct (nth_error_long lm 4) as [a4 ->]; [lia|].
    destruct (nth_error_long lm 8) as [a8 ->]; [lia|].
    destruct (nth_error_long lm 12) as [a12 ->]; [lia|].
    destruct (nth_error_long lm 16) as [a16 ->]; [lia|].
    destruct (nth_error_long lm 20) as [a20 ->]; [lia|].
    cbn zeta.
    match goal with
    | |- context [Scene3D.stateMachine ?a0 ?b0 _ ?s0] =>
        generalize a0 b0 s0; intros pd av s
    end.
    unfold Scene3D.stateMachine.
    destruct (Scene3D.Qltb av Scene3D.FIST_THRESHOLD).
    { destruct (negb _); eexists; reflexivity. }
    destruct (Scene3D.Qltb pd Scene3D.PINCH_THRESHOLD).
    { destruct (negb _); [|eexists; reflexivity].
      destruct (0 <? List.length (filter Scene3D.isPhoto
                               (Scene3D.particlesRef (Scene3D.set_mode s FOCUS))))%nat
        eqn:En; [|eexists; reflexivity].
      apply Nat.ltb_lt in En.
      destruct (index_Some _ _ (randomIndex_range rnd _ R0 R1 En))
        as (p & -> & _).
      eexists; reflexivity. }
    destruct (Scene3D.Qltb Scene3D.OPEN_THRESHOLD av); eexists; reflexivity.
Qed.

(** X10.  The same video frame is processed once: after a frame at time [t] has
    been handled, a further call at the same time writes nothing, whatever
    the detector would return; and nothing is processed without a video
    element or without a detector. *)
Theorem frame_processed_once video handLandmarker landmarks landmarks' rnd rnd'
    lastVideoTime st :
  (video = None \/ handLandmarker = false ->
   Scene3D.predictWebcam hypot video handLandmarker landmarks rnd
     lastVideoTime st
   = (lastVideoTime, Scene3D.Done st))
  /\ (forall t, video = Some t ->
      let r := Scene3D.predictWebcam hypot video handLandmarker landmarks rnd
                 lastVideoTime st in
      Scene3D.predictWebcam hypot video handLandmarker landmarks' rnd'
        (fst r) (Scene3D.final (snd r))
      = (fst r, Scene3D.Done (Scene3D.final (snd r)))).
Proof.
  split.
  - intros [-> | ->]; [reflexivity|].
    unfold Scene3D.predictWebcam. destruct video; reflexivity.
  - intros t ->. cbn zeta. unfold Scene3D.predictWebcam.
    destruct handLandmarker; cbn; [|reflexivity].
    destruct (Qeq_bool t lastVideoTime) eqn:E; cbn.
    + rewrite E. reflexivity.
    + assert (T : Qeq_bool t t = true) by (apply Qeq_bool_iff; reflexivity).
      rewrite T. reflexivity.
Qed.

End ClassifierEdges.

(** ** More on clicks and the pointer *)

Section ClickMore.

Local Open Scope Q_scope.

(** In an object graph without cycles the loop of [onClick] ends, and the
    object it stops at, if any, is a child of the photo group above the
    object it started from. *)
Lemma climb_total (depth : Obj -> nat) st :
  (forall o o', Scene3D.parent st o = Some o' -> (depth o' < depth o)%nat) ->
  forall fuel tg,
    (forall o, tg = Some o -> (depth o < fuel)%nat) ->
    exists r,
      Scene3D.climb fuel st tg = Some r
      /\ (forall g, r = Some g ->
                    Scene3D.parent st g = Scene3D.photoGroupRef st
                    /\ exists o, tg = Some o /\ Scene3D.below st g o).
Proof.
  intros Hacyc fuel. induction fuel as [|fuel IH]; intros tg Hd.
  - destruct tg as [o|]; [pose proof (Hd o eq_refl); lia|].
    exists None. split; [reflexivity | intros g; discriminate].
  - destruct tg as [o|];
      [|exists None; split; [reflexivity | intros g; discriminate]].
    cbn. destruct (Scene3D.ref_eqb (Scene3D.parent st o)
                     (Scene3D.photoGroupRef st)) eqn:E.
    + exists (Some o). split; [reflexivity|].
      intros g [= <-]. apply ref_eqb_true in E.
      split; [exact E|]. exists o. split; [reflexivity|].
      apply Scene3D.below_self.
    + destruct (IH (Scene3D.parent st o)) as (r & Hr & Hg).
      * intros o' P. pose proof (Hacyc o o' P). pose proof (Hd o eq_refl).
        lia.
      * exists r. split; [exact Hr|].
        intros g Eg. destruct (Hg g Eg) as (Hp & o' & P & B).
        split; [exact Hp|]. exists o. split; [reflexivity|].
        eapply Scene3D.below_child; eassumption.
Qed.

(** X11.  In an object graph without cycles [onClick] ends once the fuel exceeds
    the depth of the nearest hit.  It either sets the mode to FOCUS and the
    focus target to a child of the photo group that lies above the nearest
    hit, or cycles the mode: a click never focuses anything else. *)
Theorem click_ends (depth : Obj -> nat) fuel intersectObjects st :
  (forall o o', Scene3D.parent st o = Some o' -> (depth o' < depth o)%nat) ->
  (forall o rest,
     intersectObjects (Scene3D.photoMeshes st) = o :: rest ->
     (depth o < fuel)%nat) ->
  exists st',
    Scene3D.onClick fuel intersectObjects st = Some st'
    /\ ((exists first rest g,
           intersectObjects (Scene3D.photoMeshes st) = first :: rest
           /\ Scene3D.below st g first
           /\ Scene3D.parent st g = Scene3D.photoGroupRef st
           /\ st' = Scene3D.set_mode
                      (Scene3D.set_focus st (Some g)) FOCUS)
        \/ st' = Scene3D.cycleModes st).
Proof.
  intros Hacyc Hfuel. unfold Scene3D.onClick.
  destruct (intersectObjects (Scene3D.photoMeshes st)) as [|first rest] eqn:Hi.
  - eexists. split; [reflexivity | right; reflexivity].
  - destruct (climb_total depth st Hacyc fuel (Some first)) as (r & Hr & Hg).
    + intros o [= <-]. apply (Hfuel first rest). reflexivity.
    + rewrite Hr. destruct r as [g|].
      * eexists. split; [reflexivity|]. left.
        destruct (Hg g eq_refl) as (Hp & o & [= <-] & B).
        exists first, rest, g. repeat split; assumption.
      * eexists. split; [reflexivity | right; reflexivity].
Qed.

(** X12.  Clicks that hit nothing only alternate between SCATTER and TREE: after
    [n >= 1] of them the mode is SCATTER or TREE according to the parity of
    [n] and to whether the first click found the mode SCATTER, never FOCUS,
    and a focus target that was set is cleared by the first of them. *)
Theorem click_misses_alternate fuel rays st :
  (forall ray roots, In ray rays -> ray roots = []) ->
  rays <> [] ->
  exists st',
    Scene3D.clicks fuel rays st = Some st'
    /\ Scene3D.modeRef st'
       = (if xorb (Nat.odd (List.length rays))
                  (AppMode_eqb (Scene3D.modeRef st) SCATTER)
          then SCATTER else TREE)
    /\ Scene3D.focusTargetRef st'
       = (if AppMode_eqb (Scene3D.modeRef st) FOCUS then None
          else Scene3D.focusTargetRef st).
Proof.
  revert st. induction rays as [|ray rays IH]; intros st Hmiss Hne;
    [congruence|].
  cbn [Scene3D.clicks]. unfold Scene3D.onClick.
  rewrite (Hmiss ray _ (or_introl eq_refl)).
  destruct rays as [|ray' rays'].
  - cbn. eexists. split; [reflexivity|].
    destruct st as [m ps mg pg f mo h par nx]. destruct m; cbn;
      split; reflexivity.
  - destruct (IH (Scene3D.cycleModes st)) as (st' & E & M & F).
    + intros r roots Hin. apply Hmiss. right. exact Hin.
    + discriminate.
    + exists st'. split; [exact E|].
      rewrite M, F.
      change (List.length (ray :: ray' :: rays'))
        with (S (List.length (ray' :: rays'))).
      rewrite Nat.odd_succ, <- Nat.negb_odd.
      destruct st as [m ps mg pg f mo h par nx].
      destruct (Nat.odd (List.length (ray' :: rays'))); destruct m; cbn;
        split; reflexivity.
Qed.

(** X13.  The pointer is ignored while a hand is detected.  Otherwise the pointer
    position is mapped to [-1, 1] on both axes, the left edge to -1 and the
    top edge to +1, and nothing but [mouseRef] is written. *)
Theorem mouse_move clientX clientY innerWidth innerHeight st :
  0 < innerWidth -> 0 < innerHeight ->
  let st' := Scene3D.onMouseMove clientX clientY innerWidth innerHeight st in
  (Hand.detected (Scene3D.handRef st) = true -> st' = st)
  /\ (Hand.detected (Scene3D.handRef st) = false ->
      st' = Scene3D.set_mouse st (Scene3D.mouseRef st')
      /\ Mouse.x (Scene3D.mouseRef st') == 2 * clientX / innerWidth - 1
      /\ Mouse.y (Scene3D.mouseRef st') == 1 - 2 * clientY / innerHeight
      /\ (0 <= clientX <= innerWidth ->
          -1 <= Mouse.x (Scene3D.mouseRef st') <= 1)
      /\ (0 <= clientY <= innerHeight ->
          -1 <= Mouse.y (Scene3D.mouseRef st') <= 1)).
Proof.
  intros HW HH. cbn zeta. unfold Scene3D.onMouseMove. split.
  - intros ->. reflexivity.
  - intros ->. cbn.
    assert (NW : ~ innerWidth == 0)
      by (intro E; rewrite E in HW; discriminate).
    assert (NH : ~ innerHeight == 0)
      by (intro E; rewrite E in HH; discriminate).
    assert (Ex : clientX / innerWidth * 2 - 1 == 2 * clientX / innerWidth - 1)
      by (field; exact NW).
    assert (Ey : - (clientY / innerHeight) * 2 + 1
                 == 1 - 2 * clientY / innerHeight)
      by (field; exact NH).
    split; [reflexivity|]. split; [exact Ex|]. split; [exact Ey|].
    assert (Frac : forall c w, 0 < w -> 0 <= c <= w -> 0 <= c / w <= 1).
    { intros c w Hw [L U]. split.
      - apply Qle_shift_div_l; [exact Hw|]. ring_simplify. exact L.
      - apply Qle_shift_div_r; [exact Hw|]. ring_simplify. exact U. }
    split; intros Hc.
    + destruct (Frac _ _ HW Hc) as [L U].
      setoid_replace (clientX / innerWidth * 2 - 1)
        with (2 * (clientX / innerWidth) - 1) by ring.
      split.
      * apply Qle_minus_iff. ring_simplify.
        apply Qmult_le_0_compat; [discriminate | exact L].
      * apply Qle_minus_iff. apply Qle_minus_iff in U.
        setoid_replace (1 + - (2 * (clientX / innerWidth) - 1))
          with (2 * (1 + - (clientX / innerWidth))) by ring.
        apply Qmult_le_0_compat; [discriminate | exact U].
    + destruct (Frac _ _ HH Hc) as [L U].
      setoid_replace (- (clientY / innerHeight) * 2 + 1)
        with (1 - 2 * (clientY / innerHeight)) by ring.
      split.
      * apply Qle_minus_iff. apply Qle_minus_iff in U.
        setoid_replace (1 - 2 * (clientY / innerHeight) + - -1)
          with (2 * (1 + - (clientY / innerHeight))) by ring.
        apply Qmult_le_0_compat; [discriminate | exact U].
      * apply Qle_minus_iff.
        setoid_replace (1 + - (1 - 2 * (clientY / innerHeight)))
          with (2 * (clientY / innerHeight)) by ring.
        apply Qmult_le_0_compat; [discriminate | exact L].
Qed.

End ClickMore.

(** ** Uploaded photos *)

Section Uploads.

Lemma rScatter_photo_range (u : R) :
  0 <= u < 1 -> 10 <= Particle.rScatter false u < 25.
Proof. intros H. unfold Particle.rScatter. lra. Qed.

(** X14.  [addPhotoToScene] does nothing while the photo group or the main group
    is missing.  Otherwise it appends exactly one entity to the collection:
    a photo, not dust, of base scale 0.8, whose renderable is a new group
    placed in the photo group at the entity's own scatter position, on the
    shell of radius 10 to 25; the entities already there, the mode and the
    focus target are not touched. *)
Theorem upload_appends_one_photo rid sx sy sz d st :
  0 <= Particle.rnd_shell d < 1 ->
  let st' := Scene3D.addPhotoToScene rid sx sy sz d st in
  (Scene3D.photoGroupRef st = None \/ Scene3D.mainGroupRef st = None ->
   st' = st)
  /\ (forall pg mg,
        Scene3D.photoGroupRef st = Some pg ->
        Scene3D.mainGroupRef st = Some mg ->
        exists p,
          Scene3D.particlesRef st' = Scene3D.particlesRef st ++ [p]
          /\ Particle.type p = "PHOTO"%string
          /\ Particle.isDust p = false
          /\ Particle.baseScale p = 0.8
          /\ Object3D.handle (Particle.mesh p) = S (S (Scene3D.nextObj st))
          /\ Scene3D.parent st' (Object3D.handle (Particle.mesh p)) = Some pg
          /\ Object3D.position (Particle.mesh p) = Particle.posScatter p
          /\ 10 <= Vector3.length (Object3D.position (Particle.mesh p)) < 25
          /\ Scene3D.modeRef st' = Scene3D.modeRef st
          /\ Scene3D.focusTargetRef st' = Scene3D.focusTargetRef st).
Proof.
  intros Hs. cbn zeta. unfold Scene3D.addPhotoToScene. split.
  - intros [-> | E]; [reflexivity|].
    rewrite E. destruct (Scene3D.photoGroupRef st); reflexivity.
  - intros pg mg -> ->. eexists. split; [reflexivity|].
    cbn. rewrite Nat.eqb_refl.
    repeat (split; [reflexivity|]).
    split; [|split; reflexivity].
    rewrite length_spherical.
    + apply rScatter_photo_range. exact Hs.
    + pose proof (rScatter_photo_range _ Hs). lra.
Qed.

Lemma handles_app (ps : list Particle.t) (p : Particle.t) :
  map (fun e => Object3D.handle (Particle.mesh e)) (ps ++ [p])
  = map (fun e => Object3D.handle (Particle.mesh e)) ps
    ++ [Object3D.handle (Particle.mesh p)].
Proof. apply map_app. Qed.

(** X15.  Handles are handed out in increasing order, so an upload keeps the
    renderables of the entities distinct. *)
Theorem upload_keeps_handles_distinct rid sx sy sz d st :
  Scene3D.allocated st ->
  NoDup (map (fun e => Object3D.handle (Particle.mesh e))
             (Scene3D.particlesRef st)) ->
  let st' := Scene3D.addPhotoToScene rid sx sy sz d st in
  Scene3D.allocated st'
  /\ NoDup (map (fun e => Object3D.handle (Particle.mesh e))
                (Scene3D.particlesRef st')).
Proof.
  intros (Ap & Ag & Apar) Hnd. cbn zeta. unfold Scene3D.addPhotoToScene.
  destruct (Scene3D.photoGroupRef st) as [pg|] eqn:G.
  2:{ split; [|exact Hnd]. split; [exact Ap|]. split; [|exact Apar].
      intros g E. congruence. }
  destruct (Scene3D.mainGroupRef st) as [mg|] eqn:Mg.
  2:{ split; [|exact Hnd]. split; [exact Ap|]. split; [|exact Apar].
      intros g E. apply Ag. congruence. }
  pose proof (Ag pg eq_refl) as Hpg.
  split; [split; [|split]|]; cbn.
  - intros p Hin. apply in_app_or in Hin. destruct Hin as [Hin|[<-|[]]].
    + pose proof (Ap p Hin). lia.
    + cbn. lia.
  - intros g [= <-]. lia.
  - intros o o'.
    destruct (Nat.eqb_spec o (S (S (Scene3D.nextObj st)))) as [->|N1].
    + intros [= <-]. lia.
    + destruct (Nat.eqb_spec o (Scene3D.nextObj st)) as [->|N2]; cbn.
      * intros [= <-]. lia.
      * destruct (Nat.eqb_spec o (S (Scene3D.nextObj st))) as [->|N3]; cbn.
        -- intros [= <-]. lia.
        -- intros P. destruct (Apar o o' P). lia.
  - rewrite handles_app. apply NoDup_app.
    + exact Hnd.
    + repeat constructor. intros [].
    + intros h Hin [<-|[]]. cbn in Hin.
      apply in_map_iff in Hin. destruct Hin as (p & E & Hin).
      pose proof (Ap p Hin). lia.
Qed.

(** X16.  After an upload, a click whose nearest hit is the frame or the picture
    of the new photo focuses the new photo's group, whatever the mode
    was. *)
Theorem upload_then_click rid sx sy sz d st fuel intersectObjects first rest :
  Scene3D.allocated st ->
  Scene3D.photoGroupRef st <> None ->
  Scene3D.mainGroupRef st <> None ->
  let st' := Scene3D.addPhotoToScene rid sx sy sz d st in
  intersectObjects (Scene3D.photoMeshes st') = first :: rest ->
  first = Scene3D.nextObj st \/ first = S (Scene3D.nextObj st) ->
  (1 <= fuel)%nat ->
  exists st'',
    Scene3D.onClick fuel intersectObjects st' = Some st''
    /\ Scene3D.modeRef st'' = FOCUS
    /\ Scene3D.focusTargetRef st'' = Some (S (S (Scene3D.nextObj st)))
    /\ In (S (S (Scene3D.nextObj st))) (Scene3D.photoMeshes st').
Proof.
  intros (_ & Ag & _) G Mg. cbn zeta.
  unfold Scene3D.onClick, Scene3D.addPhotoToScene.
  destruct (Scene3D.photoGroupRef st) as [pg|] eqn:Eg; [|congruence].
  destruct (Scene3D.mainGroupRef st) as [mg|] eqn:Em; [|congruence].
  pose proof (Ag pg eq_refl) as Hpg.
  intros -> Hfirst Hfuel.
  destruct fuel as [|fuel]; [lia|].
  assert (Hc : Scene3D.climb (S fuel)
                 (Scene3D.addPhotoToScene rid sx sy sz d st) (Some first)
               = Some (Some (S (S (Scene3D.nextObj st))))).
  { unfold Scene3D.addPhotoToScene. rewrite Eg, Em.
    cbn [Scene3D.climb Scene3D.parent Scene3D.photoGroupRef].
    assert (E1 : Nat.eqb first (S (S (Scene3D.nextObj st))) = false)
      by (apply Nat.eqb_neq; lia).
    assert (E2 : Nat.eqb first (Scene3D.nextObj st)
                 || Nat.eqb first (S (Scene3D.nextObj st)) = true).
    { destruct Hfirst as [-> | ->].
      - rewrite Nat.eqb_refl. reflexivity.
      - rewrite Nat.eqb_refl. apply orb_true_r. }
    rewrite E1, E2. cbn [Scene3D.ref_eqb].
    assert (E3 : Nat.eqb (S (S (Scene3D.nextObj st))) pg = false)
      by (apply Nat.eqb_neq; lia).
    rewrite E3.
    destruct fuel; cbn [Scene3D.climb Scene3D.parent Scene3D.photoGroupRef];
      rewrite !Nat.eqb_refl; cbn [Scene3D.ref_eqb]; rewrite Nat.eqb_refl;
      reflexivity. }
  unfold Scene3D.addPhotoToScene in Hc. rewrite Eg, Em in Hc.
  rewrite Hc. eexists. split; [reflexivity|].
  split; [reflexivity|]. split; [reflexivity|].
  unfold Scene3D.photoMeshes, Scene3D.photos. cbn.
  rewrite filter_app, map_app. apply in_or_app. right.
  cbn. left. reflexivity.
Qed.

End Uploads.

(** ** What the focus target can be *)

Section FocusIsPhoto.

Local Open Scope Q_scope.

Variable hypot : Q -> Q -> Q.

Lemma processGestures_frame landmarks rnd st :
  let st' := Scene3D.final (Scene3D.processGestures hypot landmarks rnd st) in
  Scene3D.particlesRef st' = Scene3D.particlesRef st
  /\ Scene3D.parent st' = Scene3D.parent st
  /\ Scene3D.photoGroupRef st' = Scene3D.photoGroupRef st
  /\ Scene3D.mainGroupRef st' = Scene3D.mainGroupRef st
  /\ Scene3D.nextObj st' = Scene3D.nextObj st
  /\ Scene3D.mouseRef st' = Scene3D.mouseRef st.
Proof.
  cbn zeta. unfold Scene3D.processGestures.
  destruct landmarks as [[|lm rest]|]; try (cbn; repeat split; reflexivity).
  destruct (nth_error lm 9) as [l9|]; [|cbn; repeat split; reflexivity].
  destruct (Scene3D.metrics hypot lm) as [[pd av]|];
    [|cbn; repeat split; reflexivity].
  match goal with
  | |- context [Scene3D.stateMachine ?a ?b ?c ?s] =>
      destruct (stateMachine_frame a b c s)
        as (_ & F1 & F2 & F3 & F4 & F5 & F6)
  end.
  rewrite F1, F2, F3, F4, F5, F6. repeat split; reflexivity.
Qed.

Lemma onClick_frame fuel intersectObjects st st' :
  Scene3D.onClick fuel intersectObjects st = Some st' ->
  Scene3D.particlesRef st' = Scene3D.particlesRef st
  /\ Scene3D.parent st' = Scene3D.parent st
  /\ Scene3D.photoGroupRef st' = Scene3D.photoGroupRef st
  /\ Scene3D.mainGroupRef st' = Scene3D.mainGroupRef st
  /\ Scene3D.nextObj st' = Scene3D.nextObj st
  /\ Scene3D.mouseRef st' = Scene3D.mouseRef st
  /\ Scene3D.handRef st' = Scene3D.handRef st.
Proof.
  unfold Scene3D.onClick, Scene3D.cycleModes. intros H.
  destruct (intersectObjects (Scene3D.photoMeshes st)) as [|first rest].
  - injection H as <-.
    destruct st as [m ps mg pg f mo h par nx]; destruct m; cbn;
      repeat split; reflexivity.
  - destruct (Scene3D.climb fuel st (Some first)) as [[tg|]|];
      try discriminate; injection H as <-;
      destruct st as [m ps mg pg f mo h par nx]; destruct m; cbn;
      repeat split; reflexivity.
Qed.

Lemma climb_stops_at_child fuel st tg g :
  Scene3D.climb fuel st tg = Some (Some g) ->
  Scene3D.parent st g = Scene3D.photoGroupRef st.
Proof.
  revert tg. induction fuel as [|fuel IH]; intros tg; cbn;
    destruct tg as [o|]; try discriminate;
    destruct (Scene3D.ref_eqb (Scene3D.parent st o) (Scene3D.photoGroupRef st))
      eqn:E; try discriminate.
  - intros [= <-]. apply ref_eqb_true. exact E.
  - intros [= <-]. apply ref_eqb_true. exact E.
  - apply IH.
Qed.

(** X17.  When the children of the photo group are renderables of photo entities,
    the focus target is, in every state reached from an initial state by
    detection frames and clicks, null or the renderable of a photo entity:
    an ornament or a dust speck is never focused. *)
Theorem focus_target_is_a_photo st0 st :
  Scene3D.initial st0 ->
  (forall g, Scene3D.parent st0 g = Scene3D.photoGroupRef st0 ->
             In g (Scene3D.photoMeshes st0)) ->
  Scene3D.reachable hypot st0 st ->
  forall g, Scene3D.focusTargetRef st = Some g ->
  exists p,
    In p (Scene3D.particlesRef st)
    /\ Particle.type p = "PHOTO"%string
    /\ Object3D.handle (Particle.mesh p) = g.
Proof.
  intros [_ Hf0] Hscene Hr.
  assert (K : Scene3D.particlesRef st = Scene3D.particlesRef st0
              /\ Scene3D.parent st = Scene3D.parent st0
              /\ Scene3D.photoGroupRef st = Scene3D.photoGroupRef st0
              /\ forall g, Scene3D.focusTargetRef st = Some g ->
                           In g (Scene3D.photoMeshes st0)).
  { induction Hr as [|s s' Hr (Ip & Ipar & Ipg & If) Hs].
    - repeat split; try reflexivity. intros g E. congruence.
    - destruct Hs as [landmarks rnd s | fuel ray s s' Hc].
      + destruct (processGestures_frame landmarks rnd s)
          as (F1 & F2 & F3 & _).
        split; [congruence|]. split; [congruence|]. split; [congruence|].
        intros g. unfold Scene3D.processGestures.
        destruct landmarks as [[|lm rest]|]; try (cbn; apply If).
        destruct (nth_error lm 9) as [l9|]; [|cbn; apply If].
        destruct (Scene3D.metrics hypot lm) as [[pd av]|]; [|cbn; apply If].
        unfold Scene3D.stateMachine.
        repeat match goal with
               | |- context [if ?c then _ else _] => destruct c eqn:?; cbn
               end; try (apply If); try discriminate.
        match goal with
        | |- context [Scene3D.index ?l ?i] =>
            destruct (Scene3D.index l i) as [p|] eqn:Ei
        end; cbn; [|apply If].
        intros [= <-].
        unfold Scene3D.index in Ei.
        destruct (_ <? 0)%Z; [discriminate|].
        apply nth_error_In in Ei.
        unfold Scene3D.photoMeshes, Scene3D.photos. rewrite <- Ip.
        apply (in_map (fun p => Object3D.handle (Particle.mesh p))).
        exact Ei.
      + destruct (onClick_frame _ _ _ _ Hc) as (F1 & F2 & F3 & _).
        split; [congruence|]. split; [congruence|]. split; [congruence|].
        intros g. unfold Scene3D.onClick, Scene3D.cycleModes in Hc.
        destruct (ray (Scene3D.photoMeshes s)) as [|first rest].
        * injection Hc as <-.
          destruct (AppMode_eqb (Scene3D.modeRef s) FOCUS); cbn;
            [discriminate|].
          destruct (AppMode_eqb (Scene3D.modeRef s) TREE); cbn; apply If.
        * destruct (Scene3D.climb fuel s (Some first)) as [[tg|]|] eqn:Ec;
            try discriminate; injection Hc as <-.
          -- cbn. intros [= <-]. apply Hscene.
             apply climb_stops_at_child in Ec. congruence.
          -- destruct (AppMode_eqb (Scene3D.modeRef s) FOCUS); cbn;
               [discriminate|].
             destruct (AppMode_eqb (Scene3D.modeRef s) TREE); cbn; apply If. }
  destruct K as (Kp & _ & _ & Kf).
  intros g Eg. specialize (Kf g Eg).
  unfold Scene3D.photoMeshes, Scene3D.photos in Kf.
  apply in_map_iff in Kf. destruct Kf as (p & Eh & Hin).
  apply filter_In in Hin. destruct Hin as [Hin Hph].
  exists p. rewrite Kp. split; [exact Hin|]. split; [|exact Eh].
  unfold Scene3D.isPhoto in Hph. apply String.eqb_eq in Hph. exact Hph.
Qed.

End FocusIsPhoto.

(** ** The render loop *)

Section RenderLoop.

Variable lookAt : Object3D.t -> Vector3.t -> Euler.t.

Lemma rig_eq (a b c d a' b' c' d' : R) :
  a = a' -> b = b' -> c = c' -> d = d' ->
  Scene3D.mkRig a b c d = Scene3D.mkRig a' b' c' d'.
Proof. intros -> -> -> ->. reflexivity. Qed.

(** X18.  A frame of zero length freezes the scene: the group and the star keep
    their rotations, every entity keeps its position and its scale, and the
    mode and the focus target are as before. *)
Theorem animate_freezes_at_dt0 time M st rig :
  let r := Scene3D.animate lookAt 0 time M st rig in
  snd r = rig
  /\ map (fun p => Object3D.position (Particle.mesh p))
         (Scene3D.particlesRef (fst r))
     = map (fun p => Object3D.position (Particle.mesh p))
           (Scene3D.particlesRef st)
  /\ map (fun p => Object3D.scale (Particle.mesh p))
         (Scene3D.particlesRef (fst r))
     = map (fun p => Object3D.scale (Particle.mesh p))
           (Scene3D.particlesRef st)
  /\ Scene3D.modeRef (fst r) = Scene3D.modeRef st
  /\ Scene3D.focusTargetRef (fst r) = Scene3D.focusTargetRef st.
Proof.
  cbn zeta. unfold Scene3D.animate. cbn [fst snd].
  split; [|split; [|split; [|split; reflexivity]]].
  - unfold Scene3D.rotate. destruct rig as [rx ry ty sy]. cbn.
    repeat match goal with
           | |- context [if ?c then _ else _] => destruct c
           end; apply rig_eq; ring.
  - cbn. rewrite map_map. apply map_ext. intros p.
    rewrite update_position. apply lerp_zero.
  - cbn. rewrite map_map. apply map_ext. intros p.
    rewrite update_scale. cbn zeta. apply lerp_zero.
Qed.

(** X19.  Where the rotation of the group comes from.  While a hand is detected
    in SCATTER or FOCUS mode the pointer has no influence and the y rotation
    is eased toward the hand's [x] times 0.8 pi.  In TREE mode the y
    rotation grows by 0.2 dt whatever the hand and the pointer do.  The
    star always turns by 0.5 dt. *)
Theorem rotation_sources dt st rig m h :
  (Hand.detected (Scene3D.handRef st) = true ->
   Scene3D.modeRef st <> TREE ->
   let rig' := Scene3D.rotate dt st rig in
   let targetY := Q2R (Hand.x (Scene3D.handRef st)) * PI * 0.8 in
   Scene3D.rotate dt (Scene3D.set_mouse st m) rig = rig'
   /\ Scene3D.rotationY rig' - targetY
      = (1 - 3 * dt) * (Scene3D.rotationY rig - targetY))
  /\ (Scene3D.modeRef st = TREE ->
      let rig' := Scene3D.rotate dt st rig in
      Scene3D.rotationY rig' = Scene3D.rotationY rig + 0.2 * dt
      /\ Scene3D.targetRotationY rig' = Scene3D.targetRotationY rig
      /\ Scene3D.rotationY
           (Scene3D.rotate dt (Scene3D.set_hand (Scene3D.set_mouse st m) h)
              rig)
         = Scene3D.rotationY rig')
  /\ Scene3D.starRotationY (Scene3D.rotate dt st rig)
     = Scene3D.starRotationY rig + 0.5 * dt.
Proof.
  split; [|split].
  - intros Hd Hm. cbn zeta. unfold Scene3D.rotate. cbn. rewrite Hd.
    destruct (Scene3D.modeRef st); [congruence | |]; cbn;
      (split; [reflexivity | replace 3.0 with 3 by lra; ring]).
  - intros Hm. cbn zeta. unfold Scene3D.rotate. cbn. rewrite Hm. cbn.
    rewrite !andb_false_r. cbn. repeat split; reflexivity.
  - unfold Scene3D.rotate.
    repeat match goal with
           | |- context [if ?c then _ else _] => destruct c
           end; reflexivity.
Qed.

End RenderLoop.

(** ** The star *)

Section Star.

(** X20.  The path of the star has [2 * points + 1] points.  Its first [lineTo]
    goes to the point the path starts from, and the point of the [i]-th
    [lineTo] lies at distance [outerRadius] from the centre for even [i],
    at distance [innerRadius] for odd [i]. *)
Theorem star_shape_points outerRadius innerRadius points :
  let shape := createStarShape outerRadius innerRadius points in
  List.length shape = (2 * points + 1)%nat
  /\ ((0 < points)%nat -> nth 1 shape (0, 0) = nth 0 shape (0, 0))
  /\ (forall i, (i < 2 * points)%nat ->
        let p := nth (S i) shape (0, 0) in
        let r := if Nat.even i then outerRadius else innerRadius in
        fst p * fst p + snd p * snd p = r * r).
Proof.
  cbn zeta. unfold createStarShape. split; [|split].
  - cbn [List.length]. rewrite length_map, length_seq. lia.
  - intros Hp. cbn [nth].
    destruct points as [|k]; [lia|].
    replace (2 * S k)%nat with (S (S (2 * k))) by lia.
    cbn [seq map nth]. cbn [Nat.modulo Nat.eqb Nat.divmod fst snd].
    cbn. rewrite Rmult_0_l, sin_0, cos_0. f_equal; ring.
  - intros i Hi. cbn [nth].
    set (f := fun i0 : nat => _).
    rewrite (nth_indep _ (0, 0) (f 0%nat))
      by (rewrite length_map, length_seq; exact Hi).
    rewrite (map_nth f), seq_nth by exact Hi.
    unfold f. cbn [fst snd Nat.add].
    assert (E : Nat.eqb (i mod 2) 0 = Nat.even i).
    { destruct (Nat.even i) eqn:Ev.
      - apply Nat.even_spec in Ev. destruct Ev as [k ->].
        apply Nat.eqb_eq. rewrite Nat.mul_comm. apply Nat.Div0.mod_mul.
      - apply Nat.eqb_neq. intros Hmod.
        assert (Nat.even i = true).
        { apply Nat.even_spec. exists (i / 2)%nat.
          pose proof (Nat.div_mod_eq i 2). lia. }
        congruence. }
    rewrite E.
    set (a := INR i * (PI / INR points)).
    pose proof (sin_cos_square a) as T.
    destruct (Nat.even i); nra.
Qed.

End Star.

(** ** The entities the scene starts with *)

Section Startup.

Local Open Scope nat_scope.

Lemma ornamentType_not_photo (rand : R) :
  String.eqb (ornamentType rand) "PHOTO" = false.
Proof.
  unfold ornamentType.
  repeat match goal with
         | |- context [Rlt_dec ?a ?b] => destruct (Rlt_dec a b)
         end; reflexivity.
Qed.

Lemma filter_none {A : Type} (f : A -> bool) (l : list A) :
  (forall a, In a l -> f a = false) -> filter f l = [].
Proof.
  induction l as [|a l IH]; intros H; [reflexivity|].
  cbn. rewrite (H a (or_introl eq_refl)). apply IH.
  intros b Hb. apply H. right. exact Hb.
Qed.

Lemma generateParticles_photos rnd h0 n m :
  filter Scene3D.isPhoto (generateParticles rnd h0 n m)
  = [defaultPhoto rnd (h0 + n + m) (15 * n + 11 * m)].
Proof.
  unfold generateParticles. rewrite !filter_app.
  rewrite (filter_none Scene3D.isPhoto (map _ (seq 0 n))).
  - rewrite (filter_none Scene3D.isPhoto (map _ (seq 0 m))).
    + reflexivity.
    + intros a Ha. apply in_map_iff in Ha. destruct Ha as (j & <- & _).
      reflexivity.
  - intros a Ha. apply in_map_iff in Ha. destruct Ha as (i & <- & _).
    apply ornamentType_not_photo.
Qed.

Lemma map_offset_seq (h n : nat) :
  map (fun x => h + x) (seq 0 n) = seq h n.
Proof.
  revert h. induction n as [|n IH]; intros h; [reflexivity|].
  cbn [seq map]. f_equal; [lia|].
  rewrite <- seq_shift, map_map, <- (IH (S h)).
  apply map_ext. intros x. lia.
Qed.

Lemma generateParticles_handles rnd h0 n m :
  map (fun e => Object3D.handle (Particle.mesh e))
      (generateParticles rnd h0 n m)
  = seq h0 (n + m) ++ [h0 + n + m + 2].
Proof.
  unfold generateParticles. rewrite !map_app, !map_map. cbn [map].
  rewrite app_assoc. f_equal.
  rewrite seq_app. f_equal.
  - rewrite <- (map_offset_seq h0 n). apply map_ext. intros x. reflexivity.
  - rewrite <- (map_offset_seq (h0 + n) m). apply map_ext. intros x.
    reflexivity.
Qed.

Lemma generateParticles_distinct rnd h0 n m :
  NoDup (map (fun e => Object3D.handle (Particle.mesh e))
             (generateParticles rnd h0 n m)).
Proof.
  rewrite generateParticles_handles. apply NoDup_app.
  - apply seq_NoDup.
  - repeat constructor. intros [].
  - intros h Hin [<-|[]]. apply in_seq in Hin. lia.
Qed.

Lemma generateParticles_length rnd h0 n m :
  List.length (generateParticles rnd h0 n m) = n + m + 1.
Proof.
  unfold generateParticles.
  rewrite !length_app, !length_map, !length_seq. cbn. lia.
Qed.

(** X21.  The scene starts with 1200 ornaments, 2000 dust specks and one photo,
    3201 entities of distinct renderables; no ornament and no dust speck has
    the type PHOTO.  So the first pinch (pinch distance below the threshold,
    no fist, mode not FOCUS) focuses the default photo's group, whatever the
    draw in [0, 1) is. *)
Theorem scene_starts_with_one_photo (rnd : nat -> R) (h0 : Obj)
    (pinchDist avgDistToWrist r : Q) (st : Scene3D.State) :
  Scene3D.particlesRef st = generatedParticles rnd h0 ->
  Scene3D.modeRef st <> FOCUS ->
  (~ avgDistToWrist < Scene3D.FIST_THRESHOLD)%Q ->
  (pinchDist < Scene3D.PINCH_THRESHOLD)%Q ->
  (0 <= r)%Q -> (r < 1)%Q ->
  let n := count CONFIG_particles in
  let m := dustCount CONFIG_particles in
  n = 1200 /\ m = 2000
  /\ List.length (Scene3D.particlesRef st) = n + m + 1
  /\ NoDup (map (fun e => Object3D.handle (Particle.mesh e))
                (Scene3D.particlesRef st))
  /\ Scene3D.photos st = [defaultPhoto rnd (h0 + n + m) (15 * n + 11 * m)]
  /\ exists st',
       Scene3D.stateMachine pinchDist avgDistToWrist r st = Scene3D.Done st'
       /\ Scene3D.modeRef st' = FOCUS
       /\ Scene3D.focusTargetRef st' = Some (h0 + n + m + 2).
Proof.
  intros Hp Hm H1 H2 R0 R1 n m.
  split; [reflexivity|]. split; [reflexivity|].
  unfold generatedParticles in Hp. fold n m in Hp.
  clearbody n m.
  split; [rewrite Hp; apply generateParticles_length|].
  split; [rewrite Hp; apply generateParticles_distinct|].
  assert (Hph : Scene3D.photos st
                = [defaultPhoto rnd (h0 + n + m) (15 * n + 11 * m)]).
  { unfold Scene3D.photos. rewrite Hp. apply generateParticles_photos. }
  split; [exact Hph|].
  rewrite (stateMachine_pinch _ _ _ _ H1 H2).
  assert (Hneg : negb (AppMode_eqb (Scene3D.modeRef st) FOCUS) = true).
  { destruct (Scene3D.modeRef st); try reflexivity; congruence. }
  rewrite Hneg, Hph. cbn [List.length Nat.ltb Nat.leb].
  pose proof (randomIndex_range r 1 R0 R1 (Nat.lt_0_1)) as Hr.
  assert (E0 : Scene3D.randomIndex r 1 = 0%Z) by lia.
  rewrite E0. cbn. eexists. split; [reflexivity|].
  split; reflexivity.
Qed.

End Startup.

Section TreeTaper.

(** X22.  The tree tapers: for draws in [0, 1] the horizontal radius of the
    tree-layout position is between 0.8 and 1.2 times
    [max (0.5, 8 (1 - t))], where [t] is the biased sample that gives the
    height [24 t - 12]; it is therefore never below 0.4, also at the very
    top. *)
Theorem tree_layout_tapers (d : Particle.Draws) (this : Particle.t) :
  (0 <= Particle.rnd_t d <= 1)%R ->
  (0 <= Particle.rnd_jitter d <= 1)%R ->
  let p := Particle.posTree (Particle.calculatePositions d this) in
  let t := Math_pow (Particle.rnd_t d) 0.8 in
  let rMax := Rmax 0.5 (8 * (1 - t)) in
  (Vector3.y p = 24 * t - 12
   /\ 0.8 * rMax <= Particle.horizontalRadius p <= 1.2 * rMax
   /\ 0.4 <= Particle.horizontalRadius p)%R.
Proof.
  intros Ht Hj.
  assert (Hb : (0 <= Math_pow (Particle.rnd_t d) 0.8 <= 1)%R)
    by (apply Math_pow_unit; lra).
  cbn zeta. unfold Particle.calculatePositions. cbn.
  set (t1 := Math_pow (Particle.rnd_t d) 0.8) in *.
  split; [lra|].
  assert (Em : (if Rlt_dec (8 * (1.0 - t1)) 0.5 then 0.5 else 8 * (1.0 - t1))%R
               = Rmax 0.5 (8 * (1 - t1))).
  { unfold Rmax. destruct (Rlt_dec (8 * (1.0 - t1)) 0.5) as [L|L];
      destruct (Rle_dec 0.5 (8 * (1 - t1))) as [L'|L']; lra. }
  rewrite Em.
  assert (Hm : (0.5 <= Rmax 0.5 (8 * (1 - t1)))%R) by apply Rmax_l.
  rewrite horizontalRadius_polar by nra.
  repeat split; nra.
Qed.

End TreeTaper.

(** ** The further properties on sample data *)

Section MoreSamples.

Lemma constructor_spin_bounds_witness :
  Vector3.x
    (Particle.spinSpeed
       (Particle.new (sampleMesh 10%nat) "PHOTO" false 0 0.5 0.5 0.5
          sampleDraws))
  < 0.15.
Proof.
  destruct (constructor_spin_bounds (sampleMesh 10%nat) "PHOTO" false
              0 0.5 0.5 0.5 sampleDraws)
    as (_ & _ & _ & [_ K] & _); try lra.
  exact K.
Defined.

Lemma focus_non_target_like_scatter_witness :
  Object3D.position
    (Particle.mesh
       (Particle.update sampleLookAt 1 FOCUS 0 (Some 10%nat) Matrix4.identity
          (sampleParticle 3%nat "BOX" false)))
  = Object3D.position
      (Particle.mesh
         (Particle.update sampleLookAt 1 SCATTER 0 (Some 10%nat)
            Matrix4.identity (sampleParticle 3%nat "BOX" false))).
Proof.
  destruct (focus_non_target_like_scatter sampleLookAt 1 0 (Some 10%nat)
              Matrix4.identity (sampleParticle 3%nat "BOX" false))
    as (K & _).
  - reflexivity.
  - exact K.
Defined.

Lemma dust_scale_target_witness :
  Particle.targetScale TREE 0 None (sampleParticle 4%nat "DUST" true) = 0.
Proof.
  destruct (dust_scale_target TREE 0 None (sampleParticle 4%nat "DUST" true))
    as (K & _).
  - reflexivity.
  - cbn. lra.
  - apply K. reflexivity.
Defined.

Lemma camera_points_anchored_witness :
  Vector3.applyMatrix4 (Particle.cameraPosLocal Matrix4.identity)
    Matrix4.identity
  = Vector3.mk 0 0 38.
Proof.
  destruct (camera_points_anchored Matrix4.identity identity_affine
              identity_det) as [K _].
  exact K.
Defined.

Lemma star_shape_points_witness :
  nth 1 (createStarShape 1.8 0.9 5) (0, 0)
  = nth 0 (createStarShape 1.8 0.9 5) (0, 0).
Proof.
  destruct (star_shape_points 1.8 0.9 5) as (_ & K & _).
  apply K. lia.
Defined.

Lemma rotation_sources_witness :
  Scene3D.rotationY
    (Scene3D.rotate 1 (sampleState TREE None) (Scene3D.mkRig 0 0 0 0))
  = 0 + 0.2 * 1.
Proof.
  destruct (rotation_sources 1 (sampleState TREE None)
              (Scene3D.mkRig 0 0 0 0) (Mouse.mk 0%Q 0%Q)
              (Hand.mk false 0%Q 0%Q)) as (_ & K & _).
  destruct K as (K & _); [reflexivity | exact K].
Defined.

Lemma upload_appends_one_photo_witness :
  List.length
    (Scene3D.particlesRef
       (Scene3D.addPhotoToScene 0 0.5 0.5 0.5 sampleDraws
          (sampleState TREE None)))
  = 5%nat.
Proof.
  destruct (upload_appends_one_photo 0 0.5 0.5 0.5 sampleDraws
              (sampleState TREE None)) as (_ & K).
  - cbn. lra.
  - destruct (K 2%nat 1%nat eq_refl eq_refl) as (p & E & _).
    rewrite E, length_app. reflexivity.
Defined.

Lemma sample_allocated mode focus : Scene3D.allocated (sampleState mode focus).
Proof.
  split; [|split].
  - cbn. intros p [<-|[<-|[<-|[<-|[]]]]]; cbn; lia.
  - cbn. intros g [= <-]. lia.
  - cbn. intros o o'.
    do 23 (destruct o as [|o]; cbn;
           [ try discriminate; intros [= <-]; lia | ]).
    discriminate.
Defined.

Lemma upload_keeps_handles_distinct_witness :
  NoDup (map (fun e => Object3D.handle (Particle.mesh e))
           (Scene3D.particlesRef
              (Scene3D.addPhotoToScene 0 0.5 0.5 0.5 sampleDraws
                 (sampleState TREE None)))).
Proof.
  apply (upload_keeps_handles_distinct 0 0.5 0.5 0.5 sampleDraws
           (sampleState TREE None)).
  - apply sample_allocated.
  - exact sample_handles_distinct.
Defined.

Lemma upload_then_click_witness :
  exists st'',
    Scene3D.onClick 1 (fun _ => [23%nat])
      (Scene3D.addPhotoToScene 0 0.5 0.5 0.5 sampleDraws
         (sampleState TREE None)) = Some st''
    /\ Scene3D.focusTargetRef st'' = Some 25%nat.
Proof.
  destruct (upload_then_click 0 0.5 0.5 0.5 sampleDraws
              (sampleState TREE None) 1 (fun _ => [23%nat]) 23%nat [])
    as (st'' & E & _ & F & _).
  - apply sample_allocated.
  - discriminate.
  - discriminate.
  - reflexivity.
  - left. reflexivity.
  - lia.
  - exists st''. split; [exact E | exact F].
Defined.

End MoreSamples.

Section MoreRationalSamples.

Local Open Scope Q_scope.

Lemma hand_signal_witness :
  Hand.detected
    (Scene3D.handRef
       (Scene3D.final
          (Scene3D.processGestures hypot_axis (Some [sampleHand 0.5 0.8]) 0
             (sampleState TREE None))))
  = true.
Proof.
  destruct (hand_signal hypot_axis (Some [sampleHand 0.5 0.8]) 0
              (sampleState TREE None)) as [_ K].
  edestruct K as (D & _).
  - reflexivity.
  - reflexivity.
  - reflexivity.
  - exact D.
Defined.

Lemma hold_keeps_mode_witness :
  exists st',
    Scene3D.processGestures hypot_axis (Some [sampleHand 0.5 0.8]) 0
      (sampleState FOCUS (Some 10%nat)) = Scene3D.Done st'
    /\ Scene3D.modeRef st' = FOCUS
    /\ Scene3D.focusTargetRef st' = Some 10%nat.
Proof.
  edestruct (hold_keeps_mode hypot_axis (Some [sampleHand 0.5 0.8]) 0
               (sampleState FOCUS (Some 10%nat))) as (st' & E & M & F).
  - unfold Scene3D.detects. do 3 eexists.
    split; [reflexivity | split; reflexivity].
  - vm_compute. discriminate.
  - vm_compute. discriminate.
  - vm_compute. discriminate.
  - exists st'. split; [exact E|]. split; [exact M | exact F].
Defined.

Lemma landmarks_read_witness :
  (exists st',
     Scene3D.processGestures hypot_axis (Some [[Landmark.mk 0 0]]) 0
       (sampleState TREE None) = Scene3D.Threw st')
  /\ (exists st',
        Scene3D.processGestures hypot_axis (Some [sampleHand 0.5 0.8]) 0
          (sampleState TREE None) = Scene3D.Done st').
Proof.
  split.
  - destruct (landmarks_read hypot_axis [Landmark.mk 0 0] [] 0
                (sampleState TREE None)) as [K _].
    destruct K as (st' & E & _); [cbn; lia|]. exists st'. exact E.
  - destruct (landmarks_read hypot_axis (sampleHand 0.5 0.8) [] 0
                (sampleState TREE None)) as [_ K].
    destruct K as (st' & E).
    + cbn. lia.
    + discriminate.
    + reflexivity.
    + exists st'. exact E.
Defined.

Lemma frame_processed_once_witness :
  Scene3D.predictWebcam hypot_axis None true (Some [sampleHand 0.5 0.8]) 0
    (-1) (sampleState TREE None)
  = (-1, Scene3D.Done (sampleState TREE None)).
Proof.
  destruct (frame_processed_once hypot_axis None true
              (Some [sampleHand 0.5 0.8]) None 0 0 (-1)
              (sampleState TREE None)) as [K _].
  apply K. left. reflexivity.
Defined.

Lemma click_ends_witness :
  exists st', Scene3D.onClick 5 sampleHit (sampleState TREE None) = Some st'.
Proof.
  destruct (click_ends sampleDepth 5 sampleHit (sampleState TREE None))
    as (st' & E & _).
  - apply sample_scene_acyclic. reflexivity.
  - intros o rest [= <- _]. cbn. lia.
  - exists st'. exact E.
Defined.

Lemma click_misses_alternate_witness :
  exists st',
    Scene3D.clicks 0 [sampleMiss; sampleMiss] (sampleState FOCUS (Some 10%nat))
    = Some st'
    /\ Scene3D.modeRef st' = TREE
    /\ Scene3D.focusTargetRef st' = None.
Proof.
  destruct (click_misses_alternate 0 [sampleMiss; sampleMiss]
              (sampleState FOCUS (Some 10%nat))) as (st' & E & M & F).
  - intros ray roots [<-|[<-|[]]]; reflexivity.
  - discriminate.
  - exists st'. split; [exact E|]. split; [exact M | exact F].
Defined.

Lemma mouse_move_witness :
  Mouse.x
    (Scene3D.mouseRef
       (Scene3D.onMouseMove 0 0 800 600 (sampleState TREE None)))
  == -1.
Proof.
  destruct (mouse_move 0 0 800 600 (sampleState TREE None)) as [_ K].
  - reflexivity.
  - reflexivity.
  - destruct K as (_ & X & _); [reflexivity|]. rewrite X. reflexivity.
Defined.

Lemma sample_photo_group_children g :
  Scene3D.parent (sampleState TREE None) g
  = Scene3D.photoGroupRef (sampleState TREE None) ->
  In g (Scene3D.photoMeshes (sampleState TREE None)).
Proof.
  cbn.
  do 23 (destruct g as [|g]; cbn;
         [ try discriminate; intros _; tauto | ]).
  discriminate.
Defined.

Lemma focus_target_is_a_photo_witness :
  exists p,
    In p (Scene3D.particlesRef (sampleState TREE None))
    /\ Particle.type p = "PHOTO"%string
    /\ Object3D.handle (Particle.mesh p) = 20%nat.
Proof.
  destruct (focus_target_is_a_photo hypot_axis (sampleState TREE None)
              (Scene3D.final
                 (Scene3D.processGestures hypot_axis
                    (Some [sampleHand 0.85 0.9]) 0.5 (sampleState TREE None))))
    with (g := 20%nat) as (p & Hin & Ht & Hh).
  - split; reflexivity.
  - exact sample_photo_group_children.
  - eapply Scene3D.reach_step; [apply Scene3D.reach_init|].
    apply Scene3D.step_gesture.
  - reflexivity.
  - exists p. split; [exact Hin|]. split; [exact Ht | exact Hh].
Defined.

End MoreRationalSamples.

Section StartupSamples.

Lemma scene_starts_with_one_photo_witness :
  exists st',
    Scene3D.stateMachine 0.05%Q 0.4%Q 0.5%Q startState = Scene3D.Done st'
    /\ Scene3D.focusTargetRef st'
       = Some (3 + count CONFIG_particles + dustCount CONFIG_particles + 2)%nat.
Proof.
  destruct (scene_starts_with_one_photo (fun _ => 0.5) 3%nat
              0.05%Q 0.4%Q 0.5%Q startState)
    as (_ & _ & _ & _ & _ & st' & E & _ & F).
  - reflexivity.
  - discriminate.
  - intro H. vm_compute in H. discriminate.
  - reflexivity.
  - vm_compute. discriminate.
  - reflexivity.
  - exists st'. split; [exact E | exact F].
Defined.

Lemma tree_layout_tapers_witness :
  0.4 <= Particle.horizontalRadius
           (Particle.posTree
              (Particle.calculatePositions sampleDraws
                 (sampleParticle 3%nat "BOX" false))).
Proof.
  destruct (tree_layout_tapers sampleDraws (sampleParticle 3%nat "BOX" false))
    as (_ & _ & K).
  - cbn. lra.
  - cbn. lra.
  - exact K.
Defined.

End StartupSamples.
